(** * Personify: the trait-score engine of [quiz_model.py]

    A shallow embedding of the class [QuizModel]: answer ingestion,
    accumulators, facet smoothing, base scores, the four adjustment phases
    and the life-cycle operations.

    Conventions of the embedding.
    - Python floats are read as exact rationals ([Q]); every comparison of
      the source is a comparison of rationals.  Rounding is not modelled.
    - A Python dict is an association list in insertion order with unique
      keys; subscripting a missing key is an error ([None]).
    - An operation that can raise returns [option]; [None] stands for the
      raised exception (partial mutations before the raise are dropped).
    - The correlation matrix is [list (list Q)].  The input contract makes
      it square, one row and one column per trait, and the phases that
      read it are written for such input: a row or an entry that is not
      there reads as empty or as 0, where numpy would raise or
      broadcast.  A property that needs the matrix to have that shape
      says so with [matrix_ok]. *)

From Stdlib Require Import QArith Qabs ZArith List String Ascii Bool Lia Lqa.
Import ListNotations.
Open Scope Q_scope.

(** ** Numbers *)

Module Num.

Definition Qltb (x y : Q) : bool := negb (Qle_bool y x).
Definition Qleb (x y : Q) : bool := Qle_bool x y.
Definition Qeqb (x y : Q) : bool := Qeq_bool x y.

(** Python [max(a, b)]: [b] when [b > a], else [a]. *)
Definition pymax (a b : Q) : Q := if Qltb a b then b else a.

(** Python [min(a, b)]: [b] when [b < a], else [a]. *)
Definition pymin (a b : Q) : Q := if Qltb b a then b else a.

(** [np.clip(x, lo, hi)] is [minimum(maximum(x, lo), hi)]. *)
Definition np_clip (x lo hi : Q) : Q := pymin hi (pymax lo x).

(** [sum(xs)] of Python and [np.sum]: left to right from 0. *)
Definition qsum (xs : list Q) : Q := fold_left Qplus xs 0.

End Num.
Import Num.

(** ** Strings: the two [str] methods the engine uses *)

Module Str.

Open Scope string_scope.

(** [sep in s] for a one-character separator. *)
Fixpoint contains (sep : ascii) (s : string) : bool :=
  match s with
  | EmptyString => false
  | String c r => Ascii.eqb c sep || contains sep r
  end.

(** [s.split(sep)] for a one-character separator: never empty. *)
Fixpoint split (sep : ascii) (s : string) : list string :=
  match s with
  | EmptyString => [EmptyString]
  | String c r =>
      if Ascii.eqb c sep then EmptyString :: split sep r
      else match split sep r with
           | [] => [String c EmptyString]
           | h :: t => String c h :: t
           end
  end.

(** ASCII white space as [str.strip()] sees it: 9 to 13 and 28 to 32.
    White space outside ASCII is not modelled. *)
Definition is_space (c : ascii) : bool :=
  let n := nat_of_ascii c in
  ((9 <=? n) && (n <=? 13) || (28 <=? n) && (n <=? 32))%nat.

Fixpoint lstrip (s : string) : string :=
  match s with
  | EmptyString => EmptyString
  | String c r => if is_space c then lstrip r else s
  end.

Fixpoint rstrip (s : string) : string :=
  match s with
  | EmptyString => EmptyString
  | String c r =>
      match rstrip r with
      | EmptyString => if is_space c then EmptyString else String c EmptyString
      | r' => String c r'
      end
  end.

Definition strip (s : string) : string := rstrip (lstrip s).

Definition colon : ascii := ":"%char.

End Str.

(** ** Dictionaries in insertion order *)

Module Dict.

Section WithValue.
Context {V : Type}.

Definition dict := list (string * V).

Fixpoint get (k : string) (d : dict) : option V :=
  match d with
  | [] => None
  | (k', v) :: r => if String.eqb k k' then Some v else get k r
  end.

Definition mem (k : string) (d : dict) : bool :=
  match get k d with Some _ => true | None => false end.

(** [d[k] = v]: overwrite in place, or append a new key. *)
Fixpoint set (k : string) (v : V) (d : dict) : dict :=
  match d with
  | [] => [(k, v)]
  | (k', v') :: r =>
      if String.eqb k k' then (k', v) :: r else (k', v') :: set k v r
  end.

Definition values (d : dict) : list V := map snd d.
Definition keys (d : dict) : list string := map fst d.

(** [{k: v for k in ks}]. *)
Definition from_keys (ks : list string) (v : V) : dict :=
  fold_left (fun d k => set k v d) ks [].

End WithValue.

Arguments dict : clear implicits.

End Dict.

(** ** Data model *)

Import Dict.
Open Scope string_scope.

(** One choice of a question: [choice.get("value")] and
    [choice.get("correlations")], a dict from trait abbreviation to a
    signed-strength symbol. *)
Record Choice := mkChoice {
  c_value : option string;
  c_correlations : option (dict string)
}.

(** A question as loaded from JSON; a [None] field is a missing key. *)
Record Question := mkQuestion {
  q_type : option string;
  q_id : option string;
  q_category : option string;
  q_choices : option (list Choice)
}.

Record PairParams := mkParams {
  force_factor : Q;
  threshold : Q;
  min_score : Q
}.

Record PatternCounts := mkCounts {
  pc_high : Z;
  pc_low : Z;
  pc_moderate : Z;
  pc_total : Z
}.

(** The mutable fields of a [QuizModel] together with the registry it
    was loaded with.  [_cache] is left out: it is emptied at the start of
    every [calculate_scores] and only remembers [_get_pair_params]. *)
Record QuizModel := mkModel {
  test_mode : bool;
  traits : list string;
  facets : dict (list string);
  trait_correlations : list (list Q);
  active_questions : list Question;
  current_question : nat;
  user_answers : list Z;
  demographics : dict Z;
  trait_scores : list Q;
  facet_scores : dict (dict Q);
  sum_value_weight : dict Q;
  sum_weight : dict Q;
  pattern_counts : PatternCounts
}.

(** ** Constants of [__init__] *)

Definition W_d : Q := 39.0.
Definition W_c : Q := 0.085.
Definition correlation_enforcement : Q := 0.22.

Definition pair_specific_params : list ((string * string) * PairParams) :=
  [ (("Agreeableness", "Vigilance"), mkParams 2.2 0.08 0.19);
    (("Agreeableness", "Dominance"), mkParams 2.1 0.08 0.19);
    (("Conscientiousness", "Flexibility"), mkParams 2.3 0.08 0.16);
    (("Extraversion", "Dominance"), mkParams 2.0 0.08 0.21);
    (("Openness", "Self-Transcendence"), mkParams 1.9 0.08 0.21);
    (("Openness", "Abstract Orientation"), mkParams 1.9 0.08 0.21) ].

Definition default_params : PairParams := mkParams 1.4 0.15 0.15.

Definition value_map : dict Q :=
  [ ("Very Low", 1); ("Low", 2); ("Low-Moderate", 2.5);
    ("Moderate", 3); ("High", 4); ("Very High", 5) ].

Definition adjustment_map : dict Q :=
  [ ("+", 0.5); ("+m", 0.25); ("0", 0.0); ("-m", -0.25); ("-", -0.5) ].

Definition trait_abbr_to_full : dict string :=
  [ ("H-H", "Honesty-Humility"); ("Em", "Emotionality");
    ("Ex", "Extraversion"); ("Ag", "Agreeableness");
    ("Co", "Conscientiousness"); ("Op", "Openness");
    ("Do", "Dominance"); ("Vi", "Vigilance");
    ("ST", "Self-Transcendence"); ("C/A", "Abstract Orientation");
    ("L/V", "Value Orientation"); ("S/F", "Flexibility") ].

Definition empty_counts : PatternCounts := mkCounts 0 0 0 0.

(** ** Small helpers: option sequencing, membership, indexing *)

Definition bind {A B} (o : option A) (f : A -> option B) : option B :=
  match o with Some a => f a | None => None end.

Notation "x <- c ;; k" := (bind c (fun x => k))
  (at level 61, c at next level, right associativity).

Definition or_default {A} (o : option A) (d : A) : A :=
  match o with Some a => a | None => d end.

(** [x in xs] for a list of strings. *)
Definition str_in (x : string) (xs : list string) : bool :=
  existsb (String.eqb x) xs.

(** [xs.index(x)]: the first position, or [ValueError]. *)
Fixpoint index_of (x : string) (xs : list string) : option nat :=
  match xs with
  | [] => None
  | y :: r => if String.eqb x y then Some 0%nat
              else option_map S (index_of x r)
  end.

(** [xs[i]] for a Python int: a negative index counts from the end;
    outside [-len, len) it is an [IndexError]. *)
Definition py_index {A} (xs : list A) (i : Z) : option A :=
  let len := Z.of_nat (List.length xs) in
  if (0 <=? i)%Z then nth_error xs (Z.to_nat i)
  else if (- len <=? i)%Z then nth_error xs (Z.to_nat (len + i))
  else None.

(** [a[i] = v] on an array; the engine only writes inside the array. *)
Fixpoint upd (i : nat) (v : Q) (a : list Q) : list Q :=
  match a, i with
  | [], _ => []
  | _ :: r, O => v :: r
  | x :: r, S i' => x :: upd i' v r
  end.

Definition at_ (a : list Q) (i : nat) : Q := nth i a 0.

Fixpoint zip_with {A B C} (f : A -> B -> C) (xs : list A) (ys : list B)
  : list C :=
  match xs, ys with
  | x :: xs', y :: ys' => f x y :: zip_with f xs' ys'
  | _, _ => []
  end.

(** [d[k] += x]; [KeyError] when [k] is missing. *)
Definition dict_add (k : string) (x : Q) (d : dict Q) : option (dict Q) :=
  v <- Dict.get k d ;; Some (Dict.set k (v + x) d).

(** ** Life cycle: [initialize_scores], [reset_quiz] *)

Definition neutral_facets (fl : dict (list string)) (fs : dict (dict Q))
  : dict (dict Q) :=
  fold_left (fun acc tf => Dict.set (fst tf) (Dict.from_keys (snd tf) 0.5) acc)
            fl fs.

Definition initialize_scores (m : QuizModel) : QuizModel :=
  mkModel (test_mode m) (traits m) (facets m) (trait_correlations m)
          (active_questions m) (current_question m) (user_answers m)
          (demographics m)
          (repeat 0.5 (List.length (traits m)))
          (neutral_facets (facets m) [])
          (Dict.from_keys (traits m) 0.0)
          (Dict.from_keys (traits m) 0.0)
          (pattern_counts m).

(** [__init__] once the registry is loaded: no active question yet. *)
Definition new_model (tm : bool) (ts : list string)
    (fl : dict (list string)) (corr : list (list Q)) : QuizModel :=
  initialize_scores
    (mkModel tm ts fl corr [] 0 [] [] [] [] [] [] empty_counts).

Definition reset_quiz (m : QuizModel) : QuizModel :=
  mkModel (test_mode m) (traits m) (facets m) (trait_correlations m)
          (active_questions m) 0 []
          (demographics m)
          (repeat 0.5 (List.length (traits m)))
          (neutral_facets (facets m) (facet_scores m))
          (Dict.from_keys (traits m) 0.0)
          (Dict.from_keys (traits m) 0.0)
          empty_counts.

(** [select_test_mode]: the sampling of questions is an external choice,
    so the chosen list is a parameter here. *)
Definition select_questions (qs : list Question) (m : QuizModel) : QuizModel :=
  reset_quiz
    (mkModel (test_mode m) (traits m) (facets m) (trait_correlations m)
             qs (current_question m) (user_answers m) (demographics m)
             (trait_scores m) (facet_scores m) (sum_value_weight m)
             (sum_weight m) (pattern_counts m)).

(** ** Base scores: [_calculate_base_scores] *)

Definition base_score_of (tm : bool) (svw sw : dict Q) (trait : string)
  : option Q :=
  w <- Dict.get trait sw ;;
  if Qltb 0 w then
    vw <- Dict.get trait svw ;;
    let avg_score := vw / w in
    let normalized_score := (avg_score - 1) / 4.0 in
    Some (if tm then pymax 0.0 (pymin 1.0 normalized_score)
          else pymax 0.1 (pymin 0.9 normalized_score))
  else Some 0.5.

Fixpoint map_opt {A B} (f : A -> option B) (xs : list A) : option (list B) :=
  match xs with
  | [] => Some []
  | x :: r => y <- f x ;; ys <- map_opt f r ;; Some (y :: ys)
  end.

Definition _calculate_base_scores (m : QuizModel) : option (list Q) :=
  map_opt (base_score_of (test_mode m) (sum_value_weight m) (sum_weight m))
          (traits m).

(** ** Pattern detector: [_detect_response_pattern] *)

Record Pattern := mkPattern {
  high_ratio : Q;
  low_ratio : Q;
  moderate_ratio : Q;
  is_balanced : bool;
  is_high_biased : bool;
  is_low_biased : bool
}.

Definition _detect_response_pattern (pc : PatternCounts) : Pattern :=
  let total := inject_Z (Z.max 1 (pc_total pc)) in
  let hr := inject_Z (pc_high pc) / total in
  let lr := inject_Z (pc_low pc) / total in
  let mr := inject_Z (pc_moderate pc) / total in
  mkPattern hr lr mr
            (Qleb 0.3 mr && Qleb mr 0.7)
            (Qltb 0.5 hr)
            (Qltb 0.5 lr).

(** ** Phase 1: [_apply_phase1_adjustments] *)

(** The two [np.where] passes over the weights. *)
Definition phase1_weight (c : Q) : Q :=
  let w := Qabs c in
  let w := if Qltb c 0 then w * 1.8 else w in
  if Qltb 0.4 c then w * 1.6 else w.

(** Lines 449 to 453: the pattern-specific damping of [adj_factor]. *)
Definition pattern_damping (pr : Pattern) (adj_factor : Q) : Q :=
  if Qltb 0.6 (high_ratio pr) then adj_factor * 0.8
  else if Qltb 0.6 (low_ratio pr) then adj_factor * 0.85
  else adj_factor.

(** Lines 455 to 461: damping by the extremity of the direct score. *)
Definition direct_damping (d : Q) (adj_factor : Q) : Q :=
  if Qltb 0.8 d || Qltb d 0.2 then adj_factor * 0.75
  else if Qltb 0.7 d || Qltb d 0.3 then adj_factor * 0.85
  else adj_factor.

(** Lines 465 to 481, applied to the pulled value [a] of trait [i]. *)
Definition phase1_respect_direct (d a : Q) : Q :=
  let direct_deviation := Qabs (d - 0.5) in
  let a :=
    if Qltb 0.25 direct_deviation then
      let pull_factor := 0.35 * (direct_deviation - 0.25) in
      a * (1 - pull_factor) + d * pull_factor
    else a in
  let a :=
    if Qltb 0.8 d && Qltb a 0.6 then pymax a 0.6
    else if Qltb d 0.2 && Qltb 0.4 a then pymin a 0.4
    else a in
  np_clip a 0.12 0.88.

(** One turn of the loop over [i]. [deviations] is computed once, before
    the loop, from the scores that enter the phase. *)
Definition phase1_step (n : nat) (pr : Pattern) (np_direct deviations : list Q)
    (corr : list (list Q)) (np_adjusted : list Q) (i : nat) : list Q :=
  let correlations := nth i corr [] in
  if Qeqb (qsum (map Qabs correlations)) 0 then np_adjusted else
  let weights := map phase1_weight correlations in
  let targets :=
    zip_with (fun c d => np_clip (0.5 + c * d * 1.4) 0.18 0.82)
             correlations deviations in
  let dev_factors := map (fun d => 1.0 + Qabs d * 1.1) deviations in
  let a_i := at_ np_adjusted i in
  let adjustments :=
    zip_with Qmult (zip_with (fun w t => w * (t - a_i)) weights targets)
             dev_factors in
  let trait_row :=
    map (fun j => if Nat.eqb i j then 0 else 1) (seq 0 n) in
  let total_adjustment := qsum (zip_with Qmult adjustments trait_row) in
  let total_strength := qsum (zip_with Qmult weights trait_row) in
  if Qltb 0 total_strength then
    let adj_factor :=
      correlation_enforcement * (total_strength / inject_Z (Z.of_nat n)) in
    let adj_factor := pattern_damping pr adj_factor in
    let adj_factor := direct_damping (at_ np_direct i) adj_factor in
    let a := a_i + total_adjustment * adj_factor / total_strength in
    upd i (phase1_respect_direct (at_ np_direct i) a) np_adjusted
  else np_adjusted.

Definition _apply_phase1_adjustments (n : nat) (pc : PatternCounts)
    (np_adjusted np_direct : list Q) (corr : list (list Q)) : list Q :=
  let deviations := map (fun x => x - 0.5) np_adjusted in
  let pattern_ratio := _detect_response_pattern pc in
  fold_left (phase1_step n pattern_ratio np_direct deviations corr)
            (seq 0 n) np_adjusted.

(** ** Phase 2: [_apply_phase2_adjustments] *)

Definition pair_eqb (p q : string * string) : bool :=
  String.eqb (fst p) (fst q) && String.eqb (snd p) (snd q).

Fixpoint find_pair (p : string * string)
    (tbl : list ((string * string) * PairParams)) : option PairParams :=
  match tbl with
  | [] => None
  | (k, v) :: r => if pair_eqb p k then Some v else find_pair p r
  end.

Definition _get_pair_params (trait_pair reverse_pair : string * string)
  : PairParams :=
  match find_pair trait_pair pair_specific_params with
  | Some p => p
  | None =>
      match find_pair reverse_pair pair_specific_params with
      | Some p => p
      | None => default_params
      end
  end.

Definition strong_direct (d : Q) : bool := Qltb 0.8 d || Qltb d 0.2.

Definition same_side (x y : Q) : bool :=
  (Qltb 0.5 x && Qltb 0.5 y) || (Qltb x 0.5 && Qltb y 0.5).

Definition opposite_sides (x y : Q) : bool :=
  (Qltb 0.5 x && Qltb y 0.5) || (Qltb x 0.5 && Qltb 0.5 y).

(** The forced value of the moved trait in a negative pair: [self_d] is
    its direct score, [other] the current score of its partner. *)
Definition neg_forced (params : PairParams) (correlation self_d other : Q) : Q :=
  let force_reduction := if strong_direct self_d then 0.3 else 0.0 in
  let effective_force := force_factor params * (1.0 - force_reduction) in
  let v := 0.5 - (other - 0.5) * Qabs correlation * effective_force in
  if Qltb 0.65 self_d then
    let pull_strength := (self_d - 0.65) * 2.0 in
    pymax v (min_score params + pull_strength * 0.25)
  else v.

Definition _adjust_negative_correlation (np_adjusted np_direct : list Q)
    (i j : nat) (correlation : Q) (params : PairParams) : list Q :=
  let strong_direct_i := strong_direct (at_ np_direct i) in
  let strong_direct_j := strong_direct (at_ np_direct j) in
  let a :=
    if same_side (at_ np_adjusted i) (at_ np_adjusted j) then
      if Qltb (Qabs (at_ np_adjusted i - 0.5)) (Qabs (at_ np_adjusted j - 0.5))
         || (strong_direct_j && negb strong_direct_i)
      then upd i (neg_forced params correlation (at_ np_direct i)
                             (at_ np_adjusted j)) np_adjusted
      else upd j (neg_forced params correlation (at_ np_direct j)
                             (at_ np_adjusted i)) np_adjusted
    else np_adjusted in
  let min_i := min_score params + (if strong_direct_i then 0.1 else 0) in
  let min_j := min_score params + (if strong_direct_j then 0.1 else 0) in
  let a := upd i (pymax min_i (pymin 0.9 (at_ a i))) a in
  upd j (pymax min_j (pymin 0.9 (at_ a j))) a.

(** The forced value of the moved trait in a positive pair. *)
Definition pos_forced (params : PairParams) (correlation self_d other : Q) : Q :=
  let force_factor := force_factor params * 1.2 in
  let deviation := other - 0.5 in
  let v := 0.5 + deviation * Qabs correlation * force_factor in
  if Qltb self_d 0.4 && Qltb 0.5 v then
    let pull_strength := (0.4 - self_d) * 1.5 in
    pymin v (0.5 + pull_strength * 0.2)
  else if Qltb 0.6 self_d && Qltb v 0.5 then
    let pull_strength := (self_d - 0.6) * 1.5 in
    pymax v (0.5 - pull_strength * 0.2)
  else v.

Definition _adjust_positive_correlation (np_adjusted np_direct : list Q)
    (i j : nat) (correlation : Q) (params : PairParams) : list Q :=
  let a :=
    if opposite_sides (at_ np_adjusted i) (at_ np_adjusted j) then
      if Qltb (Qabs (at_ np_adjusted i - 0.5)) (Qabs (at_ np_adjusted j - 0.5))
      then upd i (pos_forced params correlation (at_ np_direct i)
                             (at_ np_adjusted j)) np_adjusted
      else upd j (pos_forced params correlation (at_ np_direct j)
                             (at_ np_adjusted i)) np_adjusted
    else np_adjusted in
  let a := upd i (pymax (min_score params) (pymin 0.9 (at_ a i))) a in
  upd j (pymax (min_score params) (pymin 0.9 (at_ a j))) a.

(** The body of the double loop, for one pair [i < j]. *)
Definition phase2_step (ts : list string) (np_direct : list Q)
    (corr : list (list Q)) (np_adjusted : list Q) (ij : nat * nat) : list Q :=
  let (i, j) := ij in
  let trait_pair := (nth i ts "", nth j ts "") in
  let reverse_pair := (nth j ts "", nth i ts "") in
  let correlation := nth j (nth i corr []) 0 in
  let params := _get_pair_params trait_pair reverse_pair in
  if Qltb (Qabs correlation) 0.45 then np_adjusted
  else if Qleb (threshold params) (Qabs (at_ np_adjusted i - 0.5))
          && Qleb (threshold params) (Qabs (at_ np_adjusted j - 0.5)) then
    if Qltb correlation 0
    then _adjust_negative_correlation np_adjusted np_direct i j correlation params
    else _adjust_positive_correlation np_adjusted np_direct i j correlation params
  else np_adjusted.

(** [for i in range(n): for j in range(i+1, n)], in loop order. *)
Definition index_pairs (n : nat) : list (nat * nat) :=
  flat_map (fun i => map (fun j => (i, j)) (seq (S i) (n - S i))) (seq 0 n).

Definition _apply_phase2_adjustments (ts : list string)
    (np_adjusted np_direct : list Q) (corr : list (list Q)) : list Q :=
  fold_left (phase2_step ts np_direct corr)
            (index_pairs (List.length ts)) np_adjusted.

(** ** Phase 3: [_apply_phase3_adjustments] *)

Definition critical_pairs : list (string * string * Q) :=
  [ ("Agreeableness", "Vigilance", -0.60);
    ("Agreeableness", "Dominance", -0.55);
    ("Conscientiousness", "Flexibility", -0.72);
    ("Extraversion", "Dominance", 0.56);
    ("Openness", "Self-Transcendence", 0.70);
    ("Openness", "Abstract Orientation", 0.65) ].

(** The body of the [try] once both indices are known. *)
Definition phase3_pair (np_direct : list Q) (idx1 idx2 : nat)
    (expected_corr : Q) (np_adjusted : list Q) : list Q :=
  let score1 := at_ np_adjusted idx1 in
  let score2 := at_ np_adjusted idx2 in
  let direct1 := at_ np_direct idx1 in
  let direct2 := at_ np_direct idx2 in
  let direct_strength1 := Qabs (direct1 - 0.5) * 2 in
  let direct_strength2 := Qabs (direct2 - 0.5) * 2 in
  if Qltb 0.1 (Qabs (score1 - 0.5)) || Qltb 0.1 (Qabs (score2 - 0.5)) then
    let first_moves :=
      Qltb (Qabs (score1 - 0.5)) (Qabs (score2 - 0.5))
      || Qltb direct_strength1 direct_strength2 in
    let a :=
      if Qltb expected_corr 0 then
        if same_side score1 score2 then
          let base_force := 1.9 in
          if first_moves then
            let force := base_force * (1.0 - direct_strength1 * 0.4) in
            upd idx1 (0.5 - (score2 - 0.5) * Qabs expected_corr * force)
                np_adjusted
          else
            let force := base_force * (1.0 - direct_strength2 * 0.4) in
            upd idx2 (0.5 - (score1 - 0.5) * Qabs expected_corr * force)
                np_adjusted
        else np_adjusted
      else
        if opposite_sides score1 score2 then
          let base_force := 1.8 in
          if first_moves then
            let force := base_force * (1.0 - direct_strength1 * 0.4) in
            upd idx1 (0.5 + (score2 - 0.5) * expected_corr * force)
                np_adjusted
          else
            let force := base_force * (1.0 - direct_strength2 * 0.4) in
            upd idx2 (0.5 + (score1 - 0.5) * expected_corr * force)
                np_adjusted
        else np_adjusted in
    let a := upd idx1 (np_clip (at_ a idx1) 0.15 0.85) a in
    upd idx2 (np_clip (at_ a idx2) 0.15 0.85) a
  else np_adjusted.

(** One turn of the loop: a trait that is not in the registry makes
    [index] raise [ValueError], which skips the pair. *)
Definition phase3_step (ts : list string) (np_direct : list Q)
    (np_adjusted : list Q) (p : string * string * Q) : list Q :=
  let '(trait1, trait2, expected_corr) := p in
  match index_of trait1 ts, index_of trait2 ts with
  | Some idx1, Some idx2 =>
      phase3_pair np_direct idx1 idx2 expected_corr np_adjusted
  | _, _ => np_adjusted
  end.

Definition _apply_phase3_adjustments (ts : list string)
    (np_adjusted np_direct : list Q) : list Q :=
  fold_left (phase3_step ts np_direct) critical_pairs np_adjusted.

(** ** Phase 4: [_apply_phase4_adjustments] *)

(** The seven [np.where] passes, for one trait with direct score [d]. *)
Definition phase4_one (a d : Q) : Q :=
  let a := if Qltb 0.9 d && Qltb a 0.65 then pymax a 0.65 else a in
  let a := if (Qltb 0.8 d && Qleb d 0.9) && Qltb a 0.5
           then pymax a 0.5 else a in
  let a := if (Qltb 0.7 d && Qleb d 0.8) && Qltb a 0.35
           then pymax a 0.35 else a in
  let a := if (Qltb 0.6 d && Qleb d 0.7) && Qltb a 0.25
           then pymax a 0.25 else a in
  let a := if Qltb d 0.1 && Qltb 0.35 a then pymin a 0.35 else a in
  let a := if (Qleb 0.1 d && Qltb d 0.2) && Qltb 0.5 a
           then pymin a 0.5 else a in
  if (Qleb 0.2 d && Qltb d 0.3) && Qltb 0.65 a then pymin a 0.65 else a.

Definition _apply_phase4_adjustments (np_adjusted np_direct : list Q)
  : list Q :=
  zip_with phase4_one np_adjusted np_direct.

(** ** Recomputation: [calculate_scores] *)

(** The four phases in order, all reading the base vector as direct
    scores. *)
Definition adjustment_pipeline (ts : list string) (pc : PatternCounts)
    (corr : list (list Q)) (base_scores : list Q) : list Q :=
  let np_direct := base_scores in
  let a := _apply_phase1_adjustments (List.length ts) pc base_scores
                                     np_direct corr in
  let a := _apply_phase2_adjustments ts a np_direct corr in
  let a := _apply_phase3_adjustments ts a np_direct in
  _apply_phase4_adjustments a np_direct.

(** The value assigned to [self.trait_scores]. *)
Definition computed_scores (m : QuizModel) : option (list Q) :=
  base_scores <- _calculate_base_scores m ;;
  if test_mode m then Some base_scores
  else if Qltb 10 (qsum (Dict.values (sum_weight m))) then
    Some (adjustment_pipeline (traits m) (pattern_counts m)
                              (trait_correlations m) base_scores)
  else Some base_scores.

Definition set_trait_scores (m : QuizModel) (sc : list Q) : QuizModel :=
  mkModel (test_mode m) (traits m) (facets m) (trait_correlations m)
          (active_questions m) (current_question m) (user_answers m)
          (demographics m) sc (facet_scores m) (sum_value_weight m)
          (sum_weight m) (pattern_counts m).

Definition calculate_scores (m : QuizModel) : option QuizModel :=
  sc <- computed_scores m ;; Some (set_trait_scores m sc).

(** ** Answer ingestion: [process_answer] and its helpers *)

(** [_apply_correlations]: one correlated contribution per declared
    abbreviation that names a trait of the registry. *)
Definition correlated_score (score adjustment : Q) : Q :=
  let deviation := score - 3 in
  3 + (deviation * adjustment * 2).

Definition apply_one_correlation (ts : list string) (score : Q)
    (acc : dict Q * dict Q) (item : string * string)
  : option (dict Q * dict Q) :=
  let (abbr, symbol) := item in
  match Dict.get abbr trait_abbr_to_full with
  | Some full_trait =>
      if str_in full_trait ts then
        let adjustment := or_default (Dict.get symbol adjustment_map) 0.0 in
        svw <- dict_add full_trait (correlated_score score adjustment * W_c)
                        (fst acc) ;;
        sw <- dict_add full_trait W_c (snd acc) ;;
        Some (svw, sw)
      else Some acc
  | None => Some acc
  end.

Fixpoint fold_opt {A B} (f : A -> B -> option A) (xs : list B) (a : A)
  : option A :=
  match xs with
  | [] => Some a
  | x :: r => a' <- f a x ;; fold_opt f r a'
  end.

Definition _apply_correlations (ts : list string) (correlations : dict string)
    (score : Q) (acc : dict Q * dict Q) : option (dict Q * dict Q) :=
  fold_opt (apply_one_correlation ts score) correlations acc.

(** The smoothed and clamped facet value. *)
Definition facet_blend (current score : Q) : Q :=
  let facet_score := (score - 1) / 4.0 in
  let new_score := (current * 0.8) + (facet_score * 0.2) in
  pymax 0.1 (pymin 0.9 new_score).

Definition _update_facet_score (fl : dict (list string))
    (fs : dict (dict Q)) (primary_trait category : string) (score : Q)
  : option (dict (dict Q)) :=
  seg <- nth_error (Str.split Str.colon category) 1 ;;
  let facet := Str.strip seg in
  if Dict.mem primary_trait fl then
    inner <- Dict.get primary_trait fs ;;
    match Dict.get facet inner with
    | Some current =>
        Some (Dict.set primary_trait
                (Dict.set facet (facet_blend current score) inner) fs)
    | None => Some fs
    end
  else Some fs.

Definition count_answer (choice_value : string) (pc : PatternCounts)
  : PatternCounts :=
  let pc :=
    if str_in choice_value ["High"; "Very High"] then
      mkCounts (pc_high pc + 1) (pc_low pc) (pc_moderate pc) (pc_total pc)
    else if str_in choice_value ["Low"; "Very Low"] then
      mkCounts (pc_high pc) (pc_low pc + 1) (pc_moderate pc) (pc_total pc)
    else
      mkCounts (pc_high pc) (pc_low pc) (pc_moderate pc + 1) (pc_total pc) in
  mkCounts (pc_high pc) (pc_low pc) (pc_moderate pc) (pc_total pc + 1).

(** The cursor moves on and the answer is logged; nothing else changes. *)
Definition advance (m : QuizModel) (choice_index : Z) (dg : dict Z)
  : QuizModel :=
  mkModel (test_mode m) (traits m) (facets m) (trait_correlations m)
          (active_questions m) (S (current_question m))
          (user_answers m ++ [choice_index]) dg
          (trait_scores m) (facet_scores m) (sum_value_weight m)
          (sum_weight m) (pattern_counts m).

Definition primary_trait_of (category : string) : string :=
  if Str.contains Str.colon category
  then Str.strip (nth 0 (Str.split Str.colon category) "")
  else category.

(** Line 276: the numeric score of the chosen value, 3 when the label is
    unknown. *)
Definition score_of_choice (choice : Choice) : Q :=
  or_default (Dict.get (or_default (c_value choice) "Moderate") value_map) 3.

(** The direct contribution of lines 279 to 281. *)
Definition direct_contribution (m : QuizModel) (primary_trait : string)
    (score : Q) : option (dict Q * dict Q) :=
  if str_in primary_trait (traits m) then
    svw <- dict_add primary_trait (score * W_d) (sum_value_weight m) ;;
    sw <- dict_add primary_trait W_d (sum_weight m) ;;
    Some (svw, sw)
  else Some (sum_value_weight m, sum_weight m).

(** The facet update of lines 288 and 289. *)
Definition facet_contribution (m : QuizModel) (primary_trait category : string)
    (score : Q) : option (dict (dict Q)) :=
  if Str.contains Str.colon category && str_in primary_trait (traits m)
  then _update_facet_score (facets m) (facet_scores m)
                           primary_trait category score
  else Some (facet_scores m).

Definition process_answer (m : QuizModel) (choice_index : Z)
  : option QuizModel :=
  question <- nth_error (active_questions m) (current_question m) ;;
  if match q_type question with
     | Some t => String.eqb t "demographic"
     | None => false
     end
  then
    id <- q_id question ;;
    Some (advance m choice_index (Dict.set id choice_index (demographics m)))
  else
    let category := or_default (q_category question) "" in
    let primary_trait := primary_trait_of category in
    if (Z.of_nat (List.length (or_default (q_choices question) []))
          <=? choice_index)%Z
    then Some (advance m choice_index (demographics m))
    else
      choices <- q_choices question ;;
      choice <- py_index choices choice_index ;;
      let choice_value := or_default (c_value choice) "Moderate" in
      let correlations := or_default (c_correlations choice) [] in
      let pc := count_answer choice_value (pattern_counts m) in
      let score := score_of_choice choice in
      acc <- direct_contribution m primary_trait score ;;
      acc <- _apply_correlations (traits m) correlations score acc ;;
      fs <- facet_contribution m primary_trait category score ;;
      let m1 :=
        mkModel (test_mode m) (traits m) (facets m) (trait_correlations m)
                (active_questions m) (current_question m)
                (user_answers m ++ [choice_index]) (demographics m)
                (trait_scores m) fs (fst acc) (snd acc) pc in
      m2 <- calculate_scores m1 ;;
      Some (mkModel (test_mode m2) (traits m2) (facets m2)
                    (trait_correlations m2) (active_questions m2)
                    (S (current_question m2)) (user_answers m2)
                    (demographics m2) (trait_scores m2) (facet_scores m2)
                    (sum_value_weight m2) (sum_weight m2)
                    (pattern_counts m2)).

(** A whole answer stream, in order. *)
Definition process_answers (m : QuizModel) (answers : list Z)
  : option QuizModel :=
  fold_opt process_answer answers m.

(** ** Completion: [is_quiz_complete], [end_assessment_now] *)

Definition is_quiz_complete (m : QuizModel) : bool :=
  match active_questions m with
  | [] => false
  | _ :: _ =>
      (List.length (active_questions m) <=? current_question m)%nat
  end.

Definition end_assessment_now (m : QuizModel) : option QuizModel :=
  m1 <- calculate_scores m ;;
  Some (match active_questions m1 with
        | [] => m1
        | _ :: _ =>
            mkModel (test_mode m1) (traits m1) (facets m1)
                    (trait_correlations m1) (active_questions m1)
                    (List.length (active_questions m1)) (user_answers m1)
                    (demographics m1) (trait_scores m1) (facet_scores m1)
                    (sum_value_weight m1) (sum_weight m1)
                    (pattern_counts m1)
        end).

(** ** Vocabulary of the properties *)

(** Every score of a vector lies in [lo, hi]. *)
Definition within (lo hi : Q) (xs : list Q) : Prop :=
  Forall (fun x => lo <= x <= hi) xs.

(** What [phase3_pair] holds just before its two clips. *)
Definition phase3_forced (np_direct : list Q) (idx1 idx2 : nat)
    (expected_corr : Q) (np_adjusted : list Q) : list Q :=
  let score1 := at_ np_adjusted idx1 in
  let score2 := at_ np_adjusted idx2 in
  let direct_strength1 := Qabs (at_ np_direct idx1 - 0.5) * 2 in
  let direct_strength2 := Qabs (at_ np_direct idx2 - 0.5) * 2 in
  let first_moves :=
    Qltb (Qabs (score1 - 0.5)) (Qabs (score2 - 0.5))
    || Qltb direct_strength1 direct_strength2 in
  if Qltb expected_corr 0 then
    if same_side score1 score2 then
      if first_moves then
        upd idx1 (0.5 - (score2 - 0.5) * Qabs expected_corr
                        * (1.9 * (1.0 - direct_strength1 * 0.4))) np_adjusted
      else
        upd idx2 (0.5 - (score1 - 0.5) * Qabs expected_corr
                        * (1.9 * (1.0 - direct_strength2 * 0.4))) np_adjusted
    else np_adjusted
  else
    if opposite_sides score1 score2 then
      if first_moves then
        upd idx1 (0.5 + (score2 - 0.5) * expected_corr
                        * (1.8 * (1.0 - direct_strength1 * 0.4))) np_adjusted
      else
        upd idx2 (0.5 + (score1 - 0.5) * expected_corr
                        * (1.8 * (1.0 - direct_strength2 * 0.4))) np_adjusted
    else np_adjusted.

(** The guard of line 685. *)
Definition phase3_triggered (idx1 idx2 : nat) (np_adjusted : list Q) : bool :=
  Qltb 0.1 (Qabs (at_ np_adjusted idx1 - 0.5))
  || Qltb 0.1 (Qabs (at_ np_adjusted idx2 - 0.5)).

(** Two engines feed [calculate_scores] the same input. *)
Definition same_inputs (m m' : QuizModel) : Prop :=
  test_mode m = test_mode m' /\ traits m = traits m'
  /\ trait_correlations m = trait_correlations m'
  /\ sum_value_weight m = sum_value_weight m'
  /\ sum_weight m = sum_weight m'
  /\ pattern_counts m = pattern_counts m'.

(** Every trait has an entry in both accumulators, as
    [initialize_scores] and [reset_quiz] arrange. *)
Definition accumulators_ok (m : QuizModel) : bool :=
  forallb (fun t => Dict.mem t (sum_weight m)
                    && Dict.mem t (sum_value_weight m)) (traits m).

(** Every key of [d] is still in [d'], with a value at least as large. *)
Definition acc_le (d d' : dict Q) : Prop :=
  forall t v, Dict.get t d = Some v ->
  exists v', Dict.get t d' = Some v' /\ v <= v'.

(** A one-trait engine with one three-choice question about a facet. *)
Definition ideas_question (value : string) : Question :=
  mkQuestion None (Some "q") (Some "Openness: Ideas")
             (Some [mkChoice (Some value) None;
                    mkChoice (Some "Moderate") None;
                    mkChoice (Some "Very High") None]).

Definition ideas_quiz (value : string) (n : nat) : QuizModel :=
  select_questions (repeat (ideas_question value) n)
    (new_model false ["Openness"] [("Openness", ["Ideas"])] [[0]]).

(** Every stored facet score lies in the closed interval [lo, hi]. *)
Definition facets_within (lo hi : Q) (fs : dict (dict Q)) : Prop :=
  Forall (fun inner => within lo hi (Dict.values inner)) (Dict.values fs).

(** The shape of the counters of any engine: each answer is counted in
    exactly one of the three tallies and in the total. *)
Definition counts_ok (pc : PatternCounts) : Prop :=
  (0 <= pc_high pc)%Z /\ (0 <= pc_low pc)%Z /\ (0 <= pc_moderate pc)%Z
  /\ (pc_high pc + pc_low pc + pc_moderate pc = pc_total pc)%Z.

(** Three traits, two critical pairs that share Agreeableness, no
    correlation in the matrix: Phases 1 and 2 leave the base scores. *)
Definition avd_traits : list string :=
  ["Agreeableness"; "Vigilance"; "Dominance"].

Definition avd_question (trait first second : string) : Question :=
  mkQuestion None None (Some trait)
             (Some [mkChoice (Some first) None; mkChoice (Some second) None]).

Definition avd_quiz : QuizModel :=
  select_questions
    (repeat (avd_question "Agreeableness" "High" "Moderate") 5
     ++ repeat (avd_question "Vigilance" "High" "Moderate") 5
     ++ repeat (avd_question "Dominance" "High" "Very High") 5)
    (new_model false avd_traits []
               [[0; 0; 0]; [0; 0; 0]; [0; 0; 0]]).

Definition avd_answers : list Z :=
  [0; 0; 0; 0; 1;  0; 0; 0; 1; 1;  0; 0; 0; 0; 1]%Z.

(** The engine [avd_quiz] after its fifteen answers. *)
Definition avd_scored : QuizModel :=
  or_default (process_answers avd_quiz avd_answers) avd_quiz.

(** One question outside the trait list whose choice only carries a
    correlated contribution, and the engine after that one answer. *)
Definition gate_quiz : QuizModel :=
  select_questions
    [mkQuestion None None (Some "Warm-up")
                (Some [mkChoice (Some "High") (Some [("Ag", "+")])])]
    (new_model false avd_traits [] [[0; 0; 0]; [0; 0; 0]; [0; 0; 0]]).

Definition gate_state : QuizModel :=
  or_default (process_answers gate_quiz [0%Z]) gate_quiz.

Definition cf_traits : list string := ["Conscientiousness"; "Flexibility"].

(** ** Vocabulary of the further properties *)

(** Every trait with a facet list has an entry in [facet_scores], as
    [initialize_scores] and [reset_quiz] arrange. *)
Definition facet_keys_ok (m : QuizModel) : bool :=
  forallb (fun tf => Dict.mem (fst tf) (facet_scores m)) (facets m).

(** The dictionaries of the engine have the keys its lookups expect. *)
Definition engine_ok (m : QuizModel) : bool :=
  accumulators_ok m && facet_keys_ok m.

(** A demographic item followed by a scored question on a trait with
    two facets. *)
Definition age_question : Question :=
  mkQuestion (Some "demographic") (Some "age") None None.

Definition survey_quiz : QuizModel :=
  select_questions [age_question; ideas_question "High"]
    (new_model false ["Openness"] [("Openness", ["Ideas"; "Fantasy"])] [[0]]).

(** Both accumulators of the pair [acc] have an entry for every trait. *)
Definition covers (ts : list string) (acc : dict Q * dict Q) : Prop :=
  forall t, In t ts ->
    Dict.mem t (fst acc) = true /\ Dict.mem t (snd acc) = true.

(** [facet_scores[trait][facet]], when both keys are there. *)
Definition facet_score_of (fs : dict (dict Q)) (trait facet : string)
  : option Q :=
  inner <- Dict.get trait fs ;; Dict.get facet inner.

(** The facet a category string names: the text after its first colon,
    stripped (line 324). *)
Definition facet_of (category : string) : string :=
  Str.strip (nth 1 (Str.split Str.colon category) "").

(** Two traits outside every critical pair with a zero correlation
    matrix, three scored questions each. *)
Definition plain_quiz : QuizModel :=
  select_questions
    (repeat (avd_question "Emotionality" "Very High" "Low") 3
     ++ repeat (avd_question "Honesty-Humility" "Very Low" "High") 3)
    (new_model false ["Emotionality"; "Honesty-Humility"] []
               [[0; 0]; [0; 0]]).

Definition plain_scored : QuizModel :=
  or_default (process_answers plain_quiz [0; 0; 1; 0; 0; 0]%Z) plain_quiz.

(** One [np.where] pass of Phase 4 that raises to a floor [c] where the
    mask holds, and one that lowers to a ceiling [c]. *)
Definition floor_pass (mask : bool) (c a : Q) : Q :=
  if mask && Qltb a c then pymax a c else a.

Definition ceiling_pass (mask : bool) (c a : Q) : Q :=
  if mask && Qltb c a then pymin a c else a.

Definition eo_traits : list string := ["Extraversion"; "Dominance"].

(** What an answer leaves behind, the answer log apart. *)
Definition outcome (m : QuizModel)
  : dict Q * dict Q * list Q * dict (dict Q) * PatternCounts * nat :=
  (sum_value_weight m, sum_weight m, trait_scores m, facet_scores m,
   pattern_counts m, current_question m).

(** The shape the input contract gives the correlation matrix: one row
    per trait and one entry per trait in every row.  On such a matrix no
    read of a phase is out of range. *)
Definition matrix_ok (n : nat) (corr : list (list Q)) : bool :=
  Nat.eqb (List.length corr) n
  && forallb (fun row => Nat.eqb (List.length row) n) corr.

(** Every character of the text is ASCII.  On such text [str.strip()]
    removes exactly the white space [Str.is_space] lists. *)
Fixpoint ascii_only (s : string) : bool :=
  match s with
  | EmptyString => true
  | String c r => (nat_of_ascii c <? 128)%nat && ascii_only r
  end.

(** * Properties *)

(** ** Comparisons and clamps *)

Lemma Qltb_lt x y : Qltb x y = true <-> x < y.
Proof.
  unfold Qltb. rewrite negb_true_iff. split; intro H.
  - apply Qnot_le_lt. intro L. apply Qle_bool_iff in L. congruence.
  - destruct (Qle_bool y x) eqn:E; [|reflexivity].
    apply Qle_bool_iff in E. exfalso. apply (Qlt_not_le _ _ H E).
Qed.

Lemma Qltb_ge x y : Qltb x y = false <-> y <= x.
Proof.
  unfold Qltb. rewrite negb_false_iff. apply Qle_bool_iff.
Qed.

Lemma Qleb_le x y : Qleb x y = true <-> x <= y.
Proof. apply Qle_bool_iff. Qed.

Lemma Qleb_gt x y : Qleb x y = false <-> y < x.
Proof.
  unfold Qleb. split; intro H.
  - apply Qnot_le_lt. intro L. apply Qle_bool_iff in L. congruence.
  - destruct (Qle_bool x y) eqn:E; [|reflexivity].
    apply Qle_bool_iff in E. exfalso. apply (Qlt_not_le _ _ H E).
Qed.

Ltac qcases :=
  repeat match goal with
  | |- context [Qltb ?a ?b] =>
      let E := fresh "E" in
      destruct (Qltb a b) eqn:E;
      [apply Qltb_lt in E | apply Qltb_ge in E]
  | |- context [Qleb ?a ?b] =>
      let E := fresh "E" in
      destruct (Qleb a b) eqn:E;
      [apply Qleb_le in E | apply Qleb_gt in E]
  end.

Lemma pymax_lb_l a b : a <= pymax a b.
Proof. unfold pymax. qcases; lra. Qed.


Lemma pymax_ub a b c : a <= c -> b <= c -> pymax a b <= c.
Proof. unfold pymax. qcases; lra. Qed.

Lemma pymin_ub_l a b : pymin a b <= a.
Proof. unfold pymin. qcases; lra. Qed.


Lemma pymin_lb a b c : c <= a -> c <= b -> c <= pymin a b.
Proof. unfold pymin. qcases; lra. Qed.

Lemma np_clip_bounds x lo hi : lo <= hi -> lo <= np_clip x lo hi <= hi.
Proof.
  intro H. unfold np_clip. split.
  - apply pymin_lb; [exact H | apply pymax_lb_l].
  - apply pymin_ub_l.
Qed.

Lemma np_clip_id x lo hi : lo <= x <= hi -> np_clip x lo hi == x.
Proof.
  intros [H1 H2]. unfold np_clip, pymax.
  destruct (Qltb lo x) eqn:E1; unfold pymin; qcases;
    try apply Qltb_lt in E1; try apply Qltb_ge in E1; lra.
Qed.

Example split_two : Str.split Str.colon "Openness: Ideas " = ["Openness"; " Ideas "].
Proof. reflexivity. Qed.

Example strip_both : Str.strip "  Ideas " = "Ideas".
Proof. reflexivity. Qed.

Example split_plain : Str.split Str.colon "Openness" = ["Openness"].
Proof. reflexivity. Qed.

(** ** Dictionaries *)

Section DictFacts.
Context {V : Type}.

Lemma get_set_same k v (d : dict V) : get k (set k v d) = Some v.
Proof.
  induction d as [|[k' v'] r IH]; simpl.
  - now rewrite String.eqb_refl.
  - destruct (String.eqb k k') eqn:E; simpl; rewrite E; auto.
Qed.

Lemma get_set_other k k' v (d : dict V) : k' <> k -> get k' (set k v d) = get k' d.
Proof.
  intro N. induction d as [|[k0 v0] r IH]; simpl.
  - destruct (String.eqb k' k) eqn:E; [apply String.eqb_eq in E; congruence | reflexivity].
  - destruct (String.eqb k k0) eqn:E; simpl.
    + apply String.eqb_eq in E. subst k0.
      destruct (String.eqb k' k) eqn:E'; [apply String.eqb_eq in E'; congruence | reflexivity].
    + destruct (String.eqb k' k0); auto.
Qed.

Lemma set_In k v (d : dict V) x : In x (values (set k v d)) -> x = v \/ In x (values d).
Proof.
  unfold values. induction d as [|[k0 v0] r IH]; simpl.
  - intros [H|[]]; auto.
  - destruct (String.eqb k k0); simpl; intros [H|H]; auto.
    destruct (IH H); auto.
Qed.

End DictFacts.

(** ** Arrays *)

Section Arrays.

Lemma upd_length i v a : List.length (upd i v a) = List.length a.
Proof.
  revert i. induction a as [|x r IH]; intros [|i]; simpl; auto.
Qed.

Lemma upd_upd_same i v w a : upd i v (upd i w a) = upd i v a.
Proof.
  revert i. induction a as [|x r IH]; intros [|i]; simpl; auto.
  now rewrite IH.
Qed.

Lemma upd_comm i j v w a :
  i <> j -> upd i v (upd j w a) = upd j w (upd i v a).
Proof.
  revert i j. induction a as [|x r IH]; intros [|i] [|j] N; simpl; auto.
  - congruence.
  - rewrite IH; auto.
Qed.

Lemma at_upd_same i v a : (i < List.length a)%nat -> at_ (upd i v a) i = v.
Proof.
  unfold at_. revert i. induction a as [|x r IH]; intros [|i] L; simpl in *;
    try lia; auto.
  apply IH. lia.
Qed.

Lemma at_upd_other i k v a : k <> i -> at_ (upd i v a) k = at_ a k.
Proof.
  unfold at_. revert i k.
  induction a as [|x r IH]; intros [|i] [|k] N; simpl; auto.
  congruence.
Qed.

Lemma Forall_upd (P : Q -> Prop) i v a :
  Forall P a -> P v -> Forall P (upd i v a).
Proof.
  intros H Hv. revert i.
  induction H as [|x r Hx Hr IH]; intros [|i]; simpl; auto.
Qed.

Lemma Forall_at (P : Q -> Prop) a k :
  Forall P a -> (k < List.length a)%nat -> P (at_ a k).
Proof.
  intros H L. unfold at_. rewrite Forall_forall in H.
  apply H. now apply nth_In.
Qed.

Lemma Forall_zip_with (P : Q -> Prop) (f : Q -> Q -> Q) xs ys :
  (forall x y, P x -> P (f x y)) ->
  Forall P xs -> Forall P (zip_with f xs ys).
Proof.
  intros Hf H. revert ys.
  induction H as [|x r Hx Hr IH]; intros [|y ys]; simpl; auto.
Qed.

Lemma Forall_fold_left {B} (P : list Q -> Prop) (f : list Q -> B -> list Q)
    (bs : list B) a :
  (forall a b, P a -> P (f a b)) -> P a -> P (fold_left f bs a).
Proof.
  intros Hf. revert a. induction bs as [|b r IH]; simpl; auto.
Qed.

End Arrays.

(** ** Score ranges *)

Section Ranges.

Lemma clamp_range lo hi x : lo <= hi -> lo <= pymax lo (pymin hi x) <= hi.
Proof.
  intro H. split.
  - apply pymax_lb_l.
  - apply pymax_ub; [exact H | apply pymin_ub_l].
Qed.

Lemma base_score_of_range tm svw sw t x :
  base_score_of tm svw sw t = Some x ->
  if tm then 0 <= x <= 1 else 0.1 <= x <= 0.9.
Proof.
  unfold base_score_of, bind.
  destruct (Dict.get t sw) as [w|]; [|discriminate].
  destruct (Qltb 0 w).
  - destruct (Dict.get t svw) as [vw|]; [|discriminate].
    intro E. injection E as <-.
    destruct tm.
    + pose proof (clamp_range 0.0 1.0 ((vw / w - 1) / 4.0)). lra.
    + apply clamp_range. lra.
  - intro E. injection E as <-. destruct tm; lra.
Qed.

Lemma map_opt_Forall {A B} (P : B -> Prop) (f : A -> option B) xs ys :
  (forall x y, f x = Some y -> P y) ->
  map_opt f xs = Some ys -> Forall P ys.
Proof.
  intro Hf. revert ys. induction xs as [|x r IH]; simpl; intros ys E.
  - injection E as <-. constructor.
  - unfold bind in E. destruct (f x) as [y|] eqn:Ey; [|discriminate].
    destruct (map_opt f r) as [ys'|]; [|discriminate].
    injection E as <-. constructor; eauto.
Qed.

Lemma map_opt_length {A B} (f : A -> option B) xs ys :
  map_opt f xs = Some ys -> List.length ys = List.length xs.
Proof.
  revert ys. induction xs as [|x r IH]; simpl; intros ys E.
  - now injection E as <-.
  - unfold bind in E. destruct (f x); [|discriminate].
    destruct (map_opt f r) as [ys'|]; [|discriminate].
    injection E as <-. simpl. f_equal. now apply IH.
Qed.

Lemma base_scores_range m bs :
  _calculate_base_scores m = Some bs ->
  Forall (fun x => if test_mode m then 0 <= x <= 1 else 0.1 <= x <= 0.9) bs.
Proof.
  unfold _calculate_base_scores. apply map_opt_Forall.
  intros t x. apply base_score_of_range.
Qed.

Lemma phase1_respect_direct_range d a :
  0.12 <= phase1_respect_direct d a <= 0.88.
Proof.
  unfold phase1_respect_direct. apply np_clip_bounds. lra.
Qed.

Lemma phase1_step_within n pr d dev corr a i :
  within 0.1 0.9 a -> within 0.1 0.9 (phase1_step n pr d dev corr a i).
Proof.
  intro H. unfold phase1_step.
  destruct (Qeqb _ _); [exact H|]. cbv zeta.
  destruct (Qltb 0 _); [|exact H].
  apply Forall_upd; [exact H|].
  match goal with
  | |- _ <= phase1_respect_direct ?x ?y <= _ =>
      pose proof (phase1_respect_direct_range x y)
  end.
  lra.
Qed.

Lemma phase1_within n pc a d corr :
  within 0.1 0.9 a ->
  within 0.1 0.9 (_apply_phase1_adjustments n pc a d corr).
Proof.
  intro H. unfold _apply_phase1_adjustments.
  apply (Forall_fold_left (within 0.1 0.9)); [|exact H].
  intros. now apply phase1_step_within.
Qed.

(** Every parameter record the engine can look up keeps its floor
    between 0.15 and 0.21. *)
Lemma find_pair_In p tbl v :
  find_pair p tbl = Some v -> In v (map snd tbl).
Proof.
  induction tbl as [|[k w] r IH]; simpl; [discriminate|].
  destruct (pair_eqb p k).
  - intro E. injection E as <-. now left.
  - intro E. right. auto.
Qed.

Lemma pair_table_min_score v :
  In v (map snd pair_specific_params) -> 0.15 <= min_score v <= 0.21.
Proof.
  simpl. intros H.
  repeat (destruct H as [<-|H]; [simpl; lra|]). destruct H.
Qed.

Lemma _get_pair_params_min_score p q :
  0.15 <= min_score (_get_pair_params p q) <= 0.21.
Proof.
  unfold _get_pair_params.
  destruct (find_pair p pair_specific_params) eqn:E1.
  - apply pair_table_min_score. eapply find_pair_In; eauto.
  - destruct (find_pair q pair_specific_params) eqn:E2.
    + apply pair_table_min_score. eapply find_pair_In; eauto.
    + simpl. lra.
Qed.

(** Writing both members of a pair last makes what was written to either
    of them before irrelevant. *)
Lemma overwrite_pair (P : Q -> Prop) i j (a a1 : list Q) (f g : list Q -> Q) :
  a1 = a \/ (exists x, a1 = upd i x a) \/ (exists x, a1 = upd j x a) ->
  Forall P a ->
  (forall l, P (f l)) -> (forall l, P (g l)) ->
  Forall P (upd j (g (upd i (f a1) a1)) (upd i (f a1) a1)).
Proof.
  intros Ha H Hf Hg.
  destruct (Nat.eq_dec i j) as [->|N].
  - rewrite upd_upd_same.
    destruct Ha as [->|[[x ->]|[x ->]]];
      rewrite ?upd_upd_same; apply Forall_upd; auto.
  - destruct Ha as [->|[[x ->]|[x ->]]].
    + apply Forall_upd; auto. apply Forall_upd; auto.
    + rewrite upd_upd_same. apply Forall_upd; auto. apply Forall_upd; auto.
    + rewrite (upd_comm i j) by exact N.
      rewrite upd_upd_same. apply Forall_upd; auto. apply Forall_upd; auto.
Qed.

Lemma adjust_negative_within a d i j c params :
  0.15 <= min_score params <= 0.21 ->
  within 0.1 0.9 a ->
  within 0.1 0.9 (_adjust_negative_correlation a d i j c params).
Proof.
  intros Hm H. unfold _adjust_negative_correlation. cbv zeta.
  match goal with
  | |- within _ _ (upd j (pymax ?mj (pymin 0.9 (at_ (upd i (pymax ?mi (pymin 0.9 (at_ ?a1 i))) ?a1) j))) _) =>
      apply (overwrite_pair (fun x => 0.1 <= x <= 0.9) i j a a1
               (fun l => pymax mi (pymin 0.9 (at_ l i)))
               (fun l => pymax mj (pymin 0.9 (at_ l j))))
  end.
  - destruct (same_side _ _); auto.
    destruct (_ || _); eauto.
  - exact H.
  - intro l. destruct (strong_direct (at_ d i));
      match goal with |- _ <= pymax ?lo (pymin ?hi ?x) <= _ =>
        pose proof (clamp_range lo hi x) end; lra.
  - intro l. destruct (strong_direct (at_ d j));
      match goal with |- _ <= pymax ?lo (pymin ?hi ?x) <= _ =>
        pose proof (clamp_range lo hi x) end; lra.
Qed.

Lemma adjust_positive_within a d i j c params :
  0.15 <= min_score params <= 0.21 ->
  within 0.1 0.9 a ->
  within 0.1 0.9 (_adjust_positive_correlation a d i j c params).
Proof.
  intros Hm H. unfold _adjust_positive_correlation. cbv zeta.
  match goal with
  | |- within _ _ (upd j (pymax ?mj (pymin 0.9 (at_ (upd i (pymax ?mi (pymin 0.9 (at_ ?a1 i))) ?a1) j))) _) =>
      apply (overwrite_pair (fun x => 0.1 <= x <= 0.9) i j a a1
               (fun l => pymax mi (pymin 0.9 (at_ l i)))
               (fun l => pymax mj (pymin 0.9 (at_ l j))))
  end.
  - destruct (opposite_sides _ _); auto.
    destruct (Qltb _ _); eauto.
  - exact H.
  - intro l.
      match goal with |- _ <= pymax ?lo (pymin ?hi ?x) <= _ =>
        pose proof (clamp_range lo hi x) end; lra.
  - intro l.
      match goal with |- _ <= pymax ?lo (pymin ?hi ?x) <= _ =>
        pose proof (clamp_range lo hi x) end; lra.
Qed.

Lemma phase2_within ts a d corr :
  within 0.1 0.9 a ->
  within 0.1 0.9 (_apply_phase2_adjustments ts a d corr).
Proof.
  intro H. unfold _apply_phase2_adjustments.
  apply (Forall_fold_left (within 0.1 0.9)); [|exact H].
  intros b [i j] Hb. unfold phase2_step.
  destruct (Qltb _ 0.45); [exact Hb|].
  destruct (_ && _); [|exact Hb].
  destruct (Qltb _ 0).
  - apply adjust_negative_within; [apply _get_pair_params_min_score | exact Hb].
  - apply adjust_positive_within; [apply _get_pair_params_min_score | exact Hb].
Qed.

Lemma phase3_pair_unfold d idx1 idx2 c a :
  phase3_pair d idx1 idx2 c a =
  if phase3_triggered idx1 idx2 a then
    let a1 := phase3_forced d idx1 idx2 c a in
    let a2 := upd idx1 (np_clip (at_ a1 idx1) 0.15 0.85) a1 in
    upd idx2 (np_clip (at_ a2 idx2) 0.15 0.85) a2
  else a.
Proof. reflexivity. Qed.

Lemma phase3_forced_shape d idx1 idx2 c a :
  phase3_forced d idx1 idx2 c a = a
  \/ (exists x, phase3_forced d idx1 idx2 c a = upd idx1 x a)
  \/ (exists x, phase3_forced d idx1 idx2 c a = upd idx2 x a).
Proof.
  unfold phase3_forced. cbv zeta.
  destruct (Qltb c 0).
  - destruct (same_side _ _); auto. destruct (_ || _); eauto.
  - destruct (opposite_sides _ _); auto. destruct (_ || _); eauto.
Qed.

Lemma phase3_pair_within lo hi d idx1 idx2 c a :
  lo <= 0.15 -> 0.85 <= hi ->
  within lo hi a -> within lo hi (phase3_pair d idx1 idx2 c a).
Proof.
  intros Hlo Hhi H. rewrite phase3_pair_unfold.
  destruct (phase3_triggered idx1 idx2 a); [|exact H]. cbv zeta.
  apply (overwrite_pair (fun x => lo <= x <= hi) idx1 idx2 a
           (phase3_forced d idx1 idx2 c a)
           (fun l => np_clip (at_ l idx1) 0.15 0.85)
           (fun l => np_clip (at_ l idx2) 0.15 0.85)).
  - apply phase3_forced_shape.
  - exact H.
  - intro l. pose proof (np_clip_bounds (at_ l idx1) 0.15 0.85). lra.
  - intro l. pose proof (np_clip_bounds (at_ l idx2) 0.15 0.85). lra.
Qed.

Lemma phase3_step_within lo hi ts d a p :
  lo <= 0.15 -> 0.85 <= hi ->
  within lo hi a -> within lo hi (phase3_step ts d a p).
Proof.
  intros Hlo Hhi H. destruct p as [[t1 t2] c]. unfold phase3_step.
  destruct (index_of t1 ts); [|exact H].
  destruct (index_of t2 ts); [|exact H].
  now apply phase3_pair_within.
Qed.

Lemma phase3_within ts a d :
  within 0.1 0.9 a -> within 0.1 0.9 (_apply_phase3_adjustments ts a d).
Proof.
  intro H. unfold _apply_phase3_adjustments.
  apply (Forall_fold_left (within 0.1 0.9)); [|exact H].
  intros. apply phase3_step_within; auto; lra.
Qed.

Lemma where_max_range lo hi (b : bool) a c :
  lo <= a <= hi -> lo <= c <= hi ->
  lo <= (if b then pymax a c else a) <= hi.
Proof.
  intros Ha Hc. destruct b; [|exact Ha].
  unfold pymax. destruct (Qltb a c); assumption.
Qed.

Lemma where_min_range lo hi (b : bool) a c :
  lo <= a <= hi -> lo <= c <= hi ->
  lo <= (if b then pymin a c else a) <= hi.
Proof.
  intros Ha Hc. destruct b; [|exact Ha].
  unfold pymin. destruct (Qltb c a); assumption.
Qed.

Lemma phase4_one_range a d :
  0.1 <= a <= 0.9 -> 0.1 <= phase4_one a d <= 0.9.
Proof.
  intro H. unfold phase4_one. cbv zeta.
  repeat first [ apply where_max_range | apply where_min_range ];
    solve [ exact H | lra ].
Qed.

Lemma phase4_within a d :
  within 0.1 0.9 a -> within 0.1 0.9 (_apply_phase4_adjustments a d).
Proof.
  intro H. unfold _apply_phase4_adjustments.
  apply Forall_zip_with; [|exact H].
  intros x y. apply phase4_one_range.
Qed.

Lemma adjustment_pipeline_within ts pc corr bs :
  within 0.1 0.9 bs -> within 0.1 0.9 (adjustment_pipeline ts pc corr bs).
Proof.
  intro H. unfold adjustment_pipeline. cbv zeta.
  apply phase4_within, phase3_within, phase2_within, phase1_within, H.
Qed.

End Ranges.

(** The range of whatever [calculate_scores] stores. *)
Lemma calculate_scores_range (m m' : QuizModel) :
  calculate_scores m = Some m' ->
  Forall (fun x => if test_mode m then 0 <= x <= 1 else 0.1 <= x <= 0.9)
         (trait_scores m').
Proof.
  intro E. unfold calculate_scores, computed_scores, bind in E.
  destruct (_calculate_base_scores m) as [bs|] eqn:Eb; [|discriminate].
  pose proof (base_scores_range m bs Eb) as R.
  destruct (test_mode m).
  - injection E as <-. exact R.
  - destruct (Qltb 10 _); injection E as <-; simpl.
    + now apply adjustment_pipeline_within.
    + exact R.
Qed.


(** ** Recomputation reads accumulators only *)

Section Recomputation.

Lemma computed_scores_ext m m' :
  same_inputs m m' -> computed_scores m = computed_scores m'.
Proof.
  intros (H1 & H2 & H3 & H4 & H5 & H6).
  unfold computed_scores, _calculate_base_scores.
  now rewrite H1, H2, H3, H4, H5, H6.
Qed.

Lemma same_inputs_set_trait_scores m sc : same_inputs m (set_trait_scores m sc).
Proof. repeat split. Qed.

Lemma map_opt_total {A B} (f : A -> option B) xs :
  (forall x, In x xs -> exists y, f x = Some y) ->
  exists ys, map_opt f xs = Some ys.
Proof.
  induction xs as [|x r IH]; intro H; simpl.
  - now exists [].
  - destruct (H x (or_introl eq_refl)) as [y Ey].
    destruct IH as [ys Eys]; [intros; apply H; now right|].
    exists (y :: ys). unfold bind. now rewrite Ey, Eys.
Qed.

Lemma calculate_scores_total m :
  accumulators_ok m = true ->
  exists sc, calculate_scores m = Some (set_trait_scores m sc).
Proof.
  intro H. unfold accumulators_ok in H. rewrite forallb_forall in H.
  destruct (map_opt_total
              (base_score_of (test_mode m) (sum_value_weight m) (sum_weight m))
              (traits m)) as [bs Ebs].
  { intros t Ht. specialize (H t Ht). apply andb_true_iff in H.
    destruct H as [Hw Hv]. unfold Dict.mem in Hw, Hv.
    unfold base_score_of, bind.
    destruct (Dict.get t (sum_weight m)) as [w|]; [|discriminate].
    destruct (Dict.get t (sum_value_weight m)) as [vw|]; [|discriminate].
    destruct (Qltb 0 w); eauto. }
  unfold calculate_scores, computed_scores, _calculate_base_scores, bind.
  rewrite Ebs.
  destruct (test_mode m); [eauto|].
  destruct (Qltb 10 _); eauto.
Qed.

End Recomputation.

(** C2. Threshold gate: in production mode, when the accumulated weight
    summed over all traits is at most 10, [calculate_scores] stores
    exactly the base scores; the four phases are not applied. *)
Theorem threshold_gate (m : QuizModel) (base_scores : list Q) :
  test_mode m = false ->
  qsum (Dict.values (sum_weight m)) <= 10 ->
  _calculate_base_scores m = Some base_scores ->
  option_map trait_scores (calculate_scores m) = Some base_scores.
Proof.
  intros Ht Hw Hb. unfold calculate_scores, computed_scores, bind.
  rewrite Hb, Ht.
  apply Qltb_ge in Hw. rewrite Hw. reflexivity.
Qed.

(** C5. Idempotence: a second [calculate_scores] right after the first
    changes nothing, and any engine with the same mode, registry,
    accumulators and pattern counters gets the same trait scores. *)
Theorem calculate_scores_idempotent (m m1 : QuizModel) :
  calculate_scores m = Some m1 ->
  calculate_scores m1 = Some m1
  /\ (forall m', same_inputs m m' ->
        option_map trait_scores (calculate_scores m')
        = Some (trait_scores m1)).
Proof.
  intro E. unfold calculate_scores, bind in E.
  destruct (computed_scores m) as [sc|] eqn:Ec; [|discriminate].
  injection E as <-. split.
  - unfold calculate_scores, bind.
    rewrite <- (computed_scores_ext m (set_trait_scores m sc))
      by apply same_inputs_set_trait_scores.
    rewrite Ec. reflexivity.
  - intros m' S. unfold calculate_scores, bind.
    rewrite <- (computed_scores_ext m m' S), Ec. reflexivity.
Qed.

(** ** Completion *)

(** C8 fails as stated: a freshly built engine has no active question,
    so its cursor 0 is already at the question count 0, yet the check
    answers false; and "end now" on it still leaves it not complete. *)
Lemma empty_quiz_is_not_complete :
  let m := new_model false ["Openness"] [("Openness", ["Ideas"])] [[0]] in
  ~ (is_quiz_complete m = true
     <-> (List.length (active_questions m) <= current_question m)%nat)
  /\ option_map is_quiz_complete (end_assessment_now m) = Some false.
Proof.
  cbv zeta. split.
  - intros [_ H]. simpl in H. specialize (H (le_n 0)). discriminate H.
  - vm_compute. reflexivity.
Qed.

(** C8, as the code has it: the completion check is true exactly when
    there is at least one active question and the cursor has reached
    their count; and "end now", which always returns on an engine whose
    accumulators cover the traits, leaves a non-empty quiz complete and
    an empty one unchanged in that respect. *)
Theorem is_quiz_complete_spec (m : QuizModel) :
  (is_quiz_complete m = true <->
     active_questions m <> []
     /\ (List.length (active_questions m) <= current_question m)%nat)
  /\ (accumulators_ok m = true ->
      exists m', end_assessment_now m = Some m'
        /\ active_questions m' = active_questions m
        /\ (active_questions m <> [] -> is_quiz_complete m' = true)
        /\ (active_questions m = [] -> is_quiz_complete m' = false)).
Proof.
  split.
  - unfold is_quiz_complete. destruct (active_questions m) as [|q r] eqn:E.
    + split; [discriminate | intros [N _]; congruence].
    + rewrite Nat.leb_le. split; [intro H; split; [discriminate | exact H]|].
      now intros [_ H].
  - intro H. destruct (calculate_scores_total m H) as [sc Esc].
    unfold end_assessment_now, bind. rewrite Esc. simpl.
    destruct (active_questions m) as [|q r] eqn:E.
    + eexists. split; [reflexivity|]. simpl. rewrite E.
      repeat split; try congruence.
      unfold is_quiz_complete. simpl. now rewrite E.
    + eexists. split; [reflexivity|]. simpl.
      repeat split; try congruence.
      intros _. unfold is_quiz_complete. simpl.
      now rewrite Nat.leb_refl.
Qed.

(** ** Answer ingestion *)

Section Ingestion.

Lemma calculate_scores_frame m m' :
  calculate_scores m = Some m' ->
  exists sc, m' = set_trait_scores m sc.
Proof.
  unfold calculate_scores, bind.
  destruct (computed_scores m) as [sc|]; [|discriminate].
  intro E. injection E as <-. eauto.
Qed.

(** The two ways [process_answer] returns: the cursor alone moves
    (demographic item, or index past the last choice), or one choice is
    scored. *)
Lemma process_answer_cases m i m' :
  process_answer m i = Some m' ->
  (exists dg, m' = advance m i dg)
  \/ (exists q choice acc0 acc fs sc,
        nth_error (active_questions m) (current_question m) = Some q
        /\ direct_contribution m
             (primary_trait_of (or_default (q_category q) ""))
             (score_of_choice choice) = Some acc0
        /\ _apply_correlations (traits m)
             (or_default (c_correlations choice) [])
             (score_of_choice choice) acc0 = Some acc
        /\ facet_contribution m
             (primary_trait_of (or_default (q_category q) ""))
             (or_default (q_category q) "")
             (score_of_choice choice) = Some fs
        /\ m' = mkModel (test_mode m) (traits m) (facets m)
                  (trait_correlations m) (active_questions m)
                  (S (current_question m)) (user_answers m ++ [i])
                  (demographics m) sc fs (fst acc) (snd acc)
                  (count_answer (or_default (c_value choice) "Moderate")
                                (pattern_counts m))).
Proof.
  unfold process_answer, bind.
  destruct (nth_error (active_questions m) (current_question m)) as [q|] eqn:Eq;
    [|discriminate].
  destruct (match q_type q with Some t => String.eqb t "demographic"
                              | None => false end).
  { destruct (q_id q); [|discriminate].
    intro E. injection E as <-. left. eauto. }
  destruct (Z.leb _ i).
  { intro E. injection E as <-. left. eauto. }
  destruct (q_choices q) as [choices|]; [|discriminate].
  destruct (py_index choices i) as [choice|]; [|discriminate].
  destruct (direct_contribution _ _ _) as [acc0|] eqn:E0; [|discriminate].
  destruct (_apply_correlations _ _ _ acc0) as [acc|] eqn:E1; [|discriminate].
  destruct (facet_contribution _ _ _ _) as [fs|] eqn:E2; [|discriminate].
  match goal with
  | |- match calculate_scores ?m1 with _ => _ end = _ -> _ =>
      destruct (calculate_scores m1) as [m2|] eqn:E3; [|discriminate];
      destruct (calculate_scores_frame _ _ E3) as [sc ->]
  end.
  intro E. injection E as <-. right.
  exists q, choice, acc0, acc, fs, sc. simpl. auto.
Qed.

Lemma acc_le_refl d : acc_le d d.
Proof. intros t v H. exists v. split; [exact H | lra]. Qed.

Lemma acc_le_trans d1 d2 d3 : acc_le d1 d2 -> acc_le d2 d3 -> acc_le d1 d3.
Proof.
  intros H12 H23 t v H. destruct (H12 t v H) as (v2 & E2 & L2).
  destruct (H23 t v2 E2) as (v3 & E3 & L3). exists v3. split; [exact E3 | lra].
Qed.

Lemma dict_add_acc_le k x d d' :
  0 <= x -> dict_add k x d = Some d' -> acc_le d d'.
Proof.
  intros Hx. unfold dict_add, bind.
  destruct (Dict.get k d) as [v0|] eqn:E0; [|discriminate].
  intro E. injection E as <-. intros t v H.
  destruct (String.eqb t k) eqn:Etk.
  - apply String.eqb_eq in Etk. subst t. rewrite get_set_same.
    exists (v0 + x). split; [reflexivity|]. rewrite E0 in H.
    injection H as <-. lra.
  - rewrite get_set_other.
    + exists v. split; [exact H | lra].
    + intro N. subst t. now rewrite String.eqb_refl in Etk.
Qed.

Lemma value_map_cases v :
  let s := or_default (Dict.get v value_map) 3 in
  s = 1 \/ s = 2 \/ s = 2.5 \/ s = 3 \/ s = 4 \/ s = 5.
Proof.
  unfold value_map. simpl.
  repeat match goal with
         | |- context [String.eqb v ?k] => destruct (String.eqb v k); simpl; auto 7
         end.
Qed.

Lemma adjustment_map_cases sym :
  let a := or_default (Dict.get sym adjustment_map) 0.0 in
  a = 0.5 \/ a = 0.25 \/ a = 0.0 \/ a = -0.25 \/ a = -0.5.
Proof.
  unfold adjustment_map. simpl.
  repeat match goal with
         | |- context [String.eqb sym ?k] => destruct (String.eqb sym k); simpl; auto 7
         end.
Qed.

Lemma score_of_choice_range c : 1 <= score_of_choice c <= 5.
Proof.
  unfold score_of_choice.
  destruct (value_map_cases (or_default (c_value c) "Moderate"))
    as [E|[E|[E|[E|[E|E]]]]]; rewrite E; lra.
Qed.

Lemma correlated_score_range score sym :
  1 <= score <= 5 ->
  1 <= correlated_score score
         (or_default (Dict.get sym adjustment_map) 0.0) <= 5.
Proof.
  intro H. unfold correlated_score.
  destruct (adjustment_map_cases sym) as [E|[E|[E|[E|E]]]]; rewrite E; lra.
Qed.

Lemma apply_one_correlation_acc_le ts score acc item acc' :
  1 <= score <= 5 ->
  apply_one_correlation ts score acc item = Some acc' ->
  acc_le (fst acc) (fst acc') /\ acc_le (snd acc) (snd acc').
Proof.
  intro Hs. destruct item as [abbr sym]. unfold apply_one_correlation, bind.
  destruct (Dict.get abbr trait_abbr_to_full) as [full|].
  - destruct (str_in full ts).
    + destruct (dict_add full _ (fst acc)) as [svw|] eqn:E1; [|discriminate].
      destruct (dict_add full W_c (snd acc)) as [sw|] eqn:E2; [|discriminate].
      intro E. injection E as <-. simpl. split.
      * eapply dict_add_acc_le; [|exact E1].
        pose proof (correlated_score_range score sym Hs).
        unfold W_c. nra.
      * eapply dict_add_acc_le; [|exact E2]. unfold W_c. lra.
    + intro E. injection E as <-. split; apply acc_le_refl.
  - intro E. injection E as <-. split; apply acc_le_refl.
Qed.

Lemma _apply_correlations_acc_le ts cs score acc acc' :
  1 <= score <= 5 ->
  _apply_correlations ts cs score acc = Some acc' ->
  acc_le (fst acc) (fst acc') /\ acc_le (snd acc) (snd acc').
Proof.
  intro Hs. unfold _apply_correlations. revert acc.
  induction cs as [|c r IH]; simpl; intros acc E.
  - injection E as <-. split; apply acc_le_refl.
  - unfold bind in E.
    destruct (apply_one_correlation ts score acc c) as [acc1|] eqn:E1;
      [|discriminate].
    destruct (apply_one_correlation_acc_le _ _ _ _ _ Hs E1) as [A B].
    destruct (IH _ E) as [A' B'].
    split; eapply acc_le_trans; eauto.
Qed.

Lemma direct_contribution_acc_le m p score acc :
  1 <= score <= 5 ->
  direct_contribution m p score = Some acc ->
  acc_le (sum_value_weight m) (fst acc) /\ acc_le (sum_weight m) (snd acc).
Proof.
  intro Hs. unfold direct_contribution, bind.
  destruct (str_in p (traits m)).
  - destruct (dict_add p _ (sum_value_weight m)) as [svw|] eqn:E1; [|discriminate].
    destruct (dict_add p W_d (sum_weight m)) as [sw|] eqn:E2; [|discriminate].
    intro E. injection E as <-. simpl. split.
    + eapply dict_add_acc_le; [|exact E1]. unfold W_d. nra.
    + eapply dict_add_acc_le; [|exact E2]. unfold W_d. lra.
  - intro E. injection E as <-. split; apply acc_le_refl.
Qed.

Lemma process_answer_acc_le m i m' :
  process_answer m i = Some m' ->
  acc_le (sum_value_weight m) (sum_value_weight m')
  /\ acc_le (sum_weight m) (sum_weight m').
Proof.
  intro E. destruct (process_answer_cases _ _ _ E)
    as [[dg ->]|(q & c & acc0 & acc & fs & sc & _ & E0 & E1 & _ & ->)]; simpl.
  - split; apply acc_le_refl.
  - pose proof (score_of_choice_range c) as Hs.
    destruct (direct_contribution_acc_le _ _ _ _ Hs E0) as [A B].
    destruct (_apply_correlations_acc_le _ _ _ _ _ Hs E1) as [A' B'].
    split; eapply acc_le_trans; eauto.
Qed.

End Ingestion.

(** C9. Accumulator monotonicity: along any answer stream that the
    engine processes without a reset, each trait's [sum_value_weight]
    and [sum_weight] entry stays present and never decreases. *)
Theorem accumulators_monotone (m m' : QuizModel) (answers : list Z) :
  process_answers m answers = Some m' ->
  acc_le (sum_value_weight m) (sum_value_weight m')
  /\ acc_le (sum_weight m) (sum_weight m').
Proof.
  unfold process_answers. revert m.
  induction answers as [|i r IH]; simpl; intros m E.
  - injection E as <-. split; apply acc_le_refl.
  - unfold bind in E. destruct (process_answer m i) as [m1|] eqn:E1;
      [|discriminate].
    destruct (process_answer_acc_le _ _ _ E1) as [A B].
    destruct (IH _ E) as [A' B'].
    split; eapply acc_le_trans; eauto.
Qed.

(** ** The lenient skip *)

(** An index at or past the number of choices of a scored question:
    the cursor and the answer log move, nothing else does. *)
Lemma process_answer_skips_past_end (m : QuizModel) (i : Z) (q : Question) :
  nth_error (active_questions m) (current_question m) = Some q ->
  q_type q <> Some "demographic" ->
  (Z.of_nat (List.length (or_default (q_choices q) [])) <= i)%Z ->
  process_answer m i = Some (advance m i (demographics m)).
Proof.
  intros Eq Ht Hi. unfold process_answer, bind. rewrite Eq.
  destruct (q_type q) as [t|] eqn:Et.
  - destruct (String.eqb t "demographic") eqn:E.
    + apply String.eqb_eq in E. congruence.
    + apply Z.leb_le in Hi. now rewrite Hi.
  - apply Z.leb_le in Hi. now rewrite Hi.
Qed.

(** C3, where the code departs from it: the guard of line 257 only
    looks at the upper end.  Index 3 on a three-choice question is
    skipped, but index -4, just as far out of range, reaches
    [question["choices"][-4]] and raises [IndexError]; and -1 is not
    skipped either, it scores the last choice. *)
Theorem process_answer_negative_index_raises :
  process_answer (ideas_quiz "Very Low" 1) (-4) = None
  /\ process_answer (ideas_quiz "Very Low" 1) 3
     = Some (advance (ideas_quiz "Very Low" 1) 3 [])
  /\ option_map pattern_counts (process_answer (ideas_quiz "Very Low" 1) (-1))
     = Some (mkCounts 1 0 0 1).
Proof. repeat split; vm_compute; reflexivity. Qed.

(** ** Facet smoothing *)

Section Facets.

Lemma Forall_values_set {V} (P : V -> Prop) k v (d : dict V) :
  Forall P (Dict.values d) -> P v -> Forall P (Dict.values (Dict.set k v d)).
Proof.
  intros H Hv. apply Forall_forall. intros x Hx.
  destruct (set_In _ _ _ _ Hx) as [->|Hin]; [exact Hv|].
  rewrite Forall_forall in H. now apply H.
Qed.

Lemma get_In_values {V} k (d : dict V) v :
  Dict.get k d = Some v -> In v (Dict.values d).
Proof.
  unfold Dict.values. induction d as [|[k0 v0] r IH]; simpl; [discriminate|].
  destruct (String.eqb k k0).
  - intro E. injection E as <-. now left.
  - intro E. right. auto.
Qed.

Lemma from_keys_values {V} (P : V -> Prop) ks (v : V) :
  P v -> Forall P (Dict.values (Dict.from_keys ks v)).
Proof.
  intro Hv. unfold Dict.from_keys.
  assert (G : forall d, Forall P (Dict.values d) ->
              Forall P (Dict.values (fold_left (fun d k => Dict.set k v d) ks d))).
  { induction ks as [|k r IH]; simpl; intros d Hd; [exact Hd|].
    apply IH. now apply Forall_values_set. }
  apply G. constructor.
Qed.

Lemma neutral_facets_within fl fs :
  facets_within 0.1 0.9 fs -> facets_within 0.1 0.9 (neutral_facets fl fs).
Proof.
  unfold neutral_facets. revert fs.
  induction fl as [|[t l] r IH]; simpl; intros fs H; [exact H|].
  apply IH. apply Forall_values_set; [exact H|].
  apply (from_keys_values (fun x => 0.1 <= x <= 0.9)). lra.
Qed.

Lemma facet_blend_range current score : 0.1 <= facet_blend current score <= 0.9.
Proof. unfold facet_blend. apply clamp_range. lra. Qed.

Lemma _update_facet_score_within fl fs p cat score fs' :
  facets_within 0.1 0.9 fs ->
  _update_facet_score fl fs p cat score = Some fs' ->
  facets_within 0.1 0.9 fs'.
Proof.
  intros H. unfold _update_facet_score, bind.
  destruct (nth_error _ 1); [|discriminate].
  destruct (Dict.mem p fl).
  - destruct (Dict.get p fs) as [inner|] eqn:Ei; [|discriminate].
    destruct (Dict.get _ inner) as [cur|].
    + intro E. injection E as <-.
      apply Forall_values_set; [exact H|].
      apply Forall_values_set; [|apply facet_blend_range].
      unfold facets_within in H. rewrite Forall_forall in H.
      apply H. eapply get_In_values; eauto.
    + intro E. now injection E as <-.
  - intro E. now injection E as <-.
Qed.

Lemma process_answer_facets_within m i m' :
  facets_within 0.1 0.9 (facet_scores m) ->
  process_answer m i = Some m' ->
  facets_within 0.1 0.9 (facet_scores m').
Proof.
  intros H E. destruct (process_answer_cases _ _ _ E)
    as [[dg ->]|(q & c & acc0 & acc & fs & sc & _ & _ & _ & E2 & ->)]; simpl.
  - exact H.
  - unfold facet_contribution in E2.
    destruct (_ && _).
    + eapply _update_facet_score_within; eauto.
    + now injection E2 as <-.
Qed.

Lemma process_answers_facets_within m answers m' :
  facets_within 0.1 0.9 (facet_scores m) ->
  process_answers m answers = Some m' ->
  facets_within 0.1 0.9 (facet_scores m').
Proof.
  unfold process_answers. revert m.
  induction answers as [|i r IH]; simpl; intros m H E.
  - now injection E as <-.
  - unfold bind in E. destruct (process_answer m i) as [m1|] eqn:E1;
      [|discriminate].
    eapply IH; [|exact E]. eapply process_answer_facets_within; eauto.
Qed.

End Facets.

(** C6 fails as stated: eight "Very Low" answers on one facet take its
    score 0.5, 0.4, 0.32, ... down to 0.0839, which the clamp turns into
    0.1 exactly, so the score is not strictly inside (0.1, 0.9). *)
Lemma facet_reaches_the_bound :
  option_map facet_scores
    (process_answers (ideas_quiz "Very Low" 8) (repeat 0%Z 8))
  = Some [("Openness", [("Ideas", 0.1)])]
  /\ ~ (forall m',
          process_answers (ideas_quiz "Very Low" 8) (repeat 0%Z 8) = Some m' ->
          Forall (fun inner => Forall (fun x => 0.1 < x /\ x < 0.9)
                                      (Dict.values inner))
                 (Dict.values (facet_scores m'))).
Proof.
  assert (E : option_map facet_scores
                (process_answers (ideas_quiz "Very Low" 8) (repeat 0%Z 8))
              = Some [("Openness", [("Ideas", 0.1)])])
    by (vm_compute; reflexivity).
  split; [exact E|]. intro H.
  destruct (process_answers (ideas_quiz "Very Low" 8) (repeat 0%Z 8))
    as [m'|]; [|discriminate].
  specialize (H m' eq_refl). simpl in E. injection E as E. rewrite E in H.
  simpl in H. inversion H as [|? ? Hin _]. inversion Hin as [|? ? [Hlt _] _].
  lra.
Qed.

(** C6, as the code has it: from a fresh or reset engine, after any
    stream of answers, every facet score lies in the closed interval
    [0.1, 0.9]; both ends can be reached. *)
Theorem facet_scores_closed_interval
    (tm : bool) (ts : list string) (fl : dict (list string))
    (corr : list (list Q)) (qs : list Question) (answers : list Z)
    (m' : QuizModel) :
  process_answers (select_questions qs (new_model tm ts fl corr)) answers
  = Some m' ->
  facets_within 0.1 0.9 (facet_scores m').
Proof.
  apply process_answers_facets_within. simpl.
  apply neutral_facets_within, neutral_facets_within. constructor.
Qed.

Example facet_reaches_the_upper_bound :
  option_map facet_scores
    (process_answers (ideas_quiz "Very High" 8) (repeat 0%Z 8))
  = Some [("Openness", [("Ideas", 0.9)])].
Proof. vm_compute. reflexivity. Qed.

(** ** Pattern damping *)

Section Damping.

Lemma count_answer_ok v pc : counts_ok pc -> counts_ok (count_answer v pc).
Proof.
  unfold counts_ok, count_answer. intros (H1 & H2 & H3 & H4).
  destruct (str_in v _); [|destruct (str_in v _)]; simpl; lia.
Qed.

Lemma process_answers_counts_ok m answers m' :
  counts_ok (pattern_counts m) ->
  process_answers m answers = Some m' ->
  counts_ok (pattern_counts m').
Proof.
  unfold process_answers. revert m.
  induction answers as [|i r IH]; simpl; intros m H E.
  - now injection E as <-.
  - unfold bind in E. destruct (process_answer m i) as [m1|] eqn:E1;
      [|discriminate].
    eapply IH; [|exact E].
    destruct (process_answer_cases _ _ _ E1)
      as [[dg ->]|(q & c & acc0 & acc & fs & sc & _ & _ & _ & _ & ->)]; simpl.
    + exact H.
    + now apply count_answer_ok.
Qed.

(** A ratio of the detector against a bound, without the division. *)
Lemma ratio_gt (a t : Z) (b : Q) :
  (1 <= t)%Z ->
  (b < inject_Z a / inject_Z t <-> b * inject_Z t < inject_Z a).
Proof.
  intro Ht.
  assert (Hq : 0 < inject_Z t).
  { change 0 with (inject_Z 0). rewrite <- Zlt_Qlt. lia. }
  assert (E : inject_Z a / inject_Z t * inject_Z t == inject_Z a)
    by (rewrite Qmult_comm; apply Qmult_div_r; lra).
  split; intro H.
  - rewrite <- E. apply Qmult_lt_compat_r; assumption.
  - apply Qlt_shift_div_l; assumption.
Qed.

Lemma detect_ratios pc :
  counts_ok pc -> (1 <= pc_total pc)%Z ->
  let pr := _detect_response_pattern pc in
  (forall b, b < high_ratio pr
             <-> b * inject_Z (pc_total pc) < inject_Z (pc_high pc))
  /\ (forall b, b < low_ratio pr
               <-> b * inject_Z (pc_total pc) < inject_Z (pc_low pc)).
Proof.
  intros _ Ht. simpl. rewrite Z.max_r by exact Ht.
  split; intro b; now apply ratio_gt.
Qed.

Lemma detect_ratios_empty pc :
  counts_ok pc -> (pc_total pc < 1)%Z ->
  let pr := _detect_response_pattern pc in
  high_ratio pr == 0 /\ low_ratio pr == 0.
Proof.
  intros (H1 & H2 & H3 & H4) Ht. simpl.
  assert (pc_high pc = 0%Z) as -> by lia.
  assert (pc_low pc = 0%Z) as -> by lia.
  split; reflexivity.
Qed.

(** With counters of that shape the two damping cases exclude each
    other: at most one ratio exceeds 0.6. *)
Lemma ratios_exclusive pc :
  counts_ok pc ->
  let pr := _detect_response_pattern pc in
  0.6 < low_ratio pr -> ~ 0.6 < high_ratio pr.
Proof.
  intros Hc pr Hl Hh. subst pr.
  destruct (Z_lt_le_dec (pc_total pc) 1) as [Ht|Ht].
  - destruct (detect_ratios_empty pc Hc Ht) as [E1 E2]. lra.
  - destruct (detect_ratios pc Hc Ht) as [Rh Rl].
    apply Rh in Hh. apply Rl in Hl.
    destruct Hc as (H1 & H2 & H3 & H4).
    assert (S : inject_Z (pc_high pc) + inject_Z (pc_low pc)
                <= inject_Z (pc_total pc)).
    { rewrite <- inject_Z_plus, <- Zle_Qle. lia. }
    assert (T : 1 <= inject_Z (pc_total pc)).
    { change 1 with (inject_Z 1). rewrite <- Zle_Qle. lia. }
    lra.
Qed.

End Damping.

(** C7 fails as stated: with 11 high-leaning answers out of 20 the
    respondent is classified high-biased (ratio 0.55 > 0.5), yet Phase 1
    leaves the adjustment factor as it is; the damping only starts above
    a ratio of 0.6. The same holds on the low side. *)
Lemma high_biased_without_damping :
  let pr := _detect_response_pattern (mkCounts 11 0 9 20) in
  let pr' := _detect_response_pattern (mkCounts 0 11 9 20) in
  is_high_biased pr = true
  /\ pattern_damping pr 1 == 1 /\ ~ pattern_damping pr 1 == 1 * 0.8
  /\ is_low_biased pr' = true
  /\ pattern_damping pr' 1 == 1 /\ ~ pattern_damping pr' 1 == 1 * 0.85.
Proof.
  vm_compute. repeat split; try discriminate; reflexivity.
Qed.

(** C7, as the code has it: for the pattern counters of any engine,
    Phase 1 multiplies the adjustment factor by 0.8 whenever more than
    0.6 of the answers lean high, by 0.85 whenever more than 0.6 lean
    low, and leaves it alone otherwise. *)
Theorem pattern_damping_spec (pc : PatternCounts) (adj_factor : Q) :
  counts_ok pc ->
  let pr := _detect_response_pattern pc in
  (0.6 < high_ratio pr -> pattern_damping pr adj_factor = adj_factor * 0.8)
  /\ (0.6 < low_ratio pr -> pattern_damping pr adj_factor = adj_factor * 0.85)
  /\ (high_ratio pr <= 0.6 -> low_ratio pr <= 0.6 ->
      pattern_damping pr adj_factor = adj_factor).
Proof.
  intros Hc pr. unfold pattern_damping. repeat split.
  - intro H. apply Qltb_lt in H. now rewrite H.
  - intro H. pose proof (ratios_exclusive pc Hc H) as N.
    destruct (Qltb 0.6 (high_ratio pr)) eqn:E.
    + apply Qltb_lt in E. contradiction.
    + apply Qltb_lt in H. fold pr in H. now rewrite H.
  - intros Hh Hl. apply Qltb_ge in Hh, Hl. now rewrite Hh, Hl.
Qed.

(** ** Phase 3 on one pair and on the whole list *)

Section Phase3.

Lemma index_of_lt x ts k : index_of x ts = Some k -> (k < List.length ts)%nat.
Proof.
  revert k. induction ts as [|y r IH]; simpl; intros k; [discriminate|].
  destruct (String.eqb x y).
  - intro E. injection E as <-. lia.
  - destruct (index_of x r) as [k'|]; simpl; [|discriminate].
    intro E. injection E as <-. specialize (IH k' eq_refl). lia.
Qed.

Lemma index_of_nth x ts k : index_of x ts = Some k -> nth_error ts k = Some x.
Proof.
  revert k. induction ts as [|y r IH]; simpl; intros k; [discriminate|].
  destruct (String.eqb x y) eqn:E.
  - apply String.eqb_eq in E. subst y. intro H. now injection H as <-.
  - destruct (index_of x r) as [k'|]; simpl; [|discriminate].
    intro H. injection H as <-. simpl. now apply IH.
Qed.

Lemma index_of_inj x y ts k :
  index_of x ts = Some k -> index_of y ts = Some k -> x = y.
Proof.
  intros Hx Hy. apply index_of_nth in Hx, Hy. congruence.
Qed.

Lemma phase3_forced_length d idx1 idx2 c a :
  List.length (phase3_forced d idx1 idx2 c a) = List.length a.
Proof.
  destruct (phase3_forced_shape d idx1 idx2 c a) as [->|[[x ->]|[x ->]]];
    auto using upd_length.
Qed.

Lemma phase3_pair_length d idx1 idx2 c a :
  List.length (phase3_pair d idx1 idx2 c a) = List.length a.
Proof.
  rewrite phase3_pair_unfold. destruct (phase3_triggered _ _ _); auto.
  cbv zeta. now rewrite !upd_length, phase3_forced_length.
Qed.

Lemma phase3_forced_other d idx1 idx2 c a k :
  k <> idx1 -> k <> idx2 -> at_ (phase3_forced d idx1 idx2 c a) k = at_ a k.
Proof.
  intros N1 N2.
  destruct (phase3_forced_shape d idx1 idx2 c a) as [->|[[x ->]|[x ->]]];
    auto using at_upd_other.
Qed.

(** The pair step writes nowhere but at its two indices. *)
Lemma phase3_pair_other d idx1 idx2 c a k :
  k <> idx1 -> k <> idx2 -> at_ (phase3_pair d idx1 idx2 c a) k = at_ a k.
Proof.
  intros N1 N2. rewrite phase3_pair_unfold.
  destruct (phase3_triggered _ _ _); auto. cbv zeta.
  rewrite !at_upd_other by assumption. now apply phase3_forced_other.
Qed.

(** When the step fires, each member ends as the clip of its forced
    value. *)
Lemma phase3_pair_values d idx1 idx2 c a :
  idx1 <> idx2 ->
  (idx1 < List.length a)%nat -> (idx2 < List.length a)%nat ->
  phase3_triggered idx1 idx2 a = true ->
  at_ (phase3_pair d idx1 idx2 c a) idx1
    = np_clip (at_ (phase3_forced d idx1 idx2 c a) idx1) 0.15 0.85
  /\ at_ (phase3_pair d idx1 idx2 c a) idx2
    = np_clip (at_ (phase3_forced d idx1 idx2 c a) idx2) 0.15 0.85.
Proof.
  intros N L1 L2 T. rewrite phase3_pair_unfold, T. cbv zeta.
  pose proof (phase3_forced_length d idx1 idx2 c a) as Lf.
  split.
  - rewrite at_upd_other by exact N.
    apply at_upd_same. now rewrite Lf.
  - rewrite at_upd_same by (now rewrite upd_length, Lf).
    now rewrite at_upd_other by auto.
Qed.

Lemma not_triggered_range idx1 idx2 a :
  phase3_triggered idx1 idx2 a = false ->
  0.15 <= at_ a idx1 <= 0.85 /\ 0.15 <= at_ a idx2 <= 0.85.
Proof.
  unfold phase3_triggered. intro H. apply orb_false_iff in H.
  destruct H as [H1 H2]. apply Qltb_ge in H1, H2.
  apply Qabs_Qle_condition in H1, H2. lra.
Qed.

(** After its own step, both members of a pair lie in [0.15, 0.85]. *)
Lemma phase3_pair_clips d idx1 idx2 c a :
  (idx1 < List.length a)%nat -> (idx2 < List.length a)%nat ->
  0.15 <= at_ (phase3_pair d idx1 idx2 c a) idx1 <= 0.85
  /\ 0.15 <= at_ (phase3_pair d idx1 idx2 c a) idx2 <= 0.85.
Proof.
  intros L1 L2. rewrite phase3_pair_unfold.
  destruct (phase3_triggered idx1 idx2 a) eqn:T;
    [|now apply not_triggered_range].
  cbv zeta.
  pose proof (phase3_forced_length d idx1 idx2 c a) as Lf.
  assert (R : forall x, 0.15 <= np_clip x 0.15 0.85 <= 0.85)
    by (intro x; apply np_clip_bounds; lra).
  split.
  - destruct (Nat.eq_dec idx1 idx2) as [<-|N].
    + rewrite at_upd_same by (now rewrite upd_length, Lf). apply R.
    + rewrite at_upd_other by exact N.
      rewrite at_upd_same by (now rewrite Lf). apply R.
  - rewrite at_upd_same by (now rewrite upd_length, Lf). apply R.
Qed.

(** A later step keeps a score that is already in [0.15, 0.85] there. *)
Lemma phase3_pair_keeps d idx1 idx2 c a k :
  (k < List.length a)%nat ->
  0.15 <= at_ a k <= 0.85 ->
  0.15 <= at_ (phase3_pair d idx1 idx2 c a) k <= 0.85.
Proof.
  intros Lk H.
  destruct (Nat.eq_dec k idx2) as [->|N2].
  - rewrite phase3_pair_unfold.
    destruct (phase3_triggered idx1 idx2 a); [|exact H]. cbv zeta.
    rewrite at_upd_same
      by (now rewrite upd_length, phase3_forced_length).
    apply np_clip_bounds. lra.
  - destruct (Nat.eq_dec k idx1) as [->|N1].
    + rewrite phase3_pair_unfold.
      destruct (phase3_triggered idx1 idx2 a); [|exact H]. cbv zeta.
      rewrite at_upd_other by exact N2.
      rewrite at_upd_same by (now rewrite phase3_forced_length).
      apply np_clip_bounds. lra.
    + now rewrite phase3_pair_other.
Qed.

Lemma phase3_step_length ts d a p :
  List.length (phase3_step ts d a p) = List.length a.
Proof.
  destruct p as [[t1 t2] c]. unfold phase3_step.
  destruct (index_of t1 ts); auto. destruct (index_of t2 ts); auto.
  apply phase3_pair_length.
Qed.

Lemma phase3_step_keeps ts d a p k :
  (k < List.length a)%nat ->
  0.15 <= at_ a k <= 0.85 ->
  0.15 <= at_ (phase3_step ts d a p) k <= 0.85.
Proof.
  intros Lk H. destruct p as [[t1 t2] c]. unfold phase3_step.
  destruct (index_of t1 ts); auto. destruct (index_of t2 ts); auto.
  now apply phase3_pair_keeps.
Qed.

Lemma phase3_steps_keep ts d ps a k :
  (k < List.length a)%nat ->
  0.15 <= at_ a k <= 0.85 ->
  0.15 <= at_ (fold_left (phase3_step ts d) ps a) k <= 0.85.
Proof.
  revert a. induction ps as [|p r IH]; simpl; intros a Lk H; [exact H|].
  apply IH.
  - now rewrite phase3_step_length.
  - now apply phase3_step_keeps.
Qed.

Lemma phase3_steps_length ts d ps a :
  List.length (fold_left (phase3_step ts d) ps a) = List.length a.
Proof.
  revert a. induction ps as [|p r IH]; simpl; intro a; auto.
  now rewrite IH, phase3_step_length.
Qed.

(** A step for a pair that names neither trait at [k] leaves [k]. *)
Lemma phase3_step_other ts d a t1 t2 c k :
  index_of t1 ts <> Some k -> index_of t2 ts <> Some k ->
  at_ (phase3_step ts d a (t1, t2, c)) k = at_ a k.
Proof.
  intros N1 N2. unfold phase3_step.
  destruct (index_of t1 ts) as [i1|]; auto.
  destruct (index_of t2 ts) as [i2|]; auto.
  apply phase3_pair_other; congruence.
Qed.

Lemma clip_keeps_low x : x < 0.5 -> np_clip x 0.15 0.85 < 0.5.
Proof.
  intro H. unfold np_clip, pymax.
  destruct (Qltb 0.15 x) eqn:E; unfold pymin; qcases; lra.
Qed.

Lemma clip_keeps_high x : 0.5 < x -> 0.5 < np_clip x 0.15 0.85.
Proof.
  intro H. unfold np_clip, pymax.
  destruct (Qltb 0.15 x) eqn:E;
    [apply Qltb_lt in E | apply Qltb_ge in E]; unfold pymin; qcases; lra.
Qed.

(** The force applied to a moved trait is positive: its direct score is a
    base score, so its strength is at most 0.8. *)
Lemma force_positive base_force dv :
  0 < base_force -> 0.1 <= dv <= 0.9 ->
  0 < base_force * (1.0 - Qabs (dv - 0.5) * 2 * 0.4).
Proof.
  intros Hb Hd.
  assert (A : Qabs (dv - 0.5) <= 0.4) by (apply Qabs_Qle_condition; lra).
  assert (B : 0 < 1.0 - Qabs (dv - 0.5) * 2 * 0.4) by lra.
  nra.
Qed.

(** Reflecting a score through 0.5 with a positive gain changes its
    side. *)
Lemma reflected_side s k f :
  0 < k -> 0 < f ->
  (0.5 < s -> 0.5 - (s - 0.5) * k * f < 0.5)
  /\ (s < 0.5 -> 0.5 < 0.5 - (s - 0.5) * k * f).
Proof.
  intros Hk Hf. assert (P : 0 < k * f) by nra.
  split; intro H.
  - assert (0 < (s - 0.5) * (k * f)) by nra. nra.
  - assert (0 < (0.5 - s) * (k * f)) by nra. nra.
Qed.

End Phase3.

Section CriticalPairs.

Lemma same_side_true x y :
  same_side x y = true <-> (0.5 < x /\ 0.5 < y) \/ (x < 0.5 /\ y < 0.5).
Proof.
  unfold same_side. rewrite orb_true_iff, !andb_true_iff, !Qltb_lt. tauto.
Qed.

Lemma opposite_sides_true x y :
  opposite_sides x y = true <-> (0.5 < x /\ y < 0.5) \/ (x < 0.5 /\ 0.5 < y).
Proof.
  unfold opposite_sides. rewrite orb_true_iff, !andb_true_iff, !Qltb_lt. tauto.
Qed.

Lemma clip_opposite x y :
  (0.5 < x /\ y < 0.5) \/ (x < 0.5 /\ 0.5 < y) ->
  opposite_sides (np_clip x 0.15 0.85) (np_clip y 0.15 0.85) = true.
Proof.
  intro H. apply opposite_sides_true.
  destruct H as [[Hx Hy]|[Hx Hy]]; [left|right];
    auto using clip_keeps_low, clip_keeps_high.
Qed.

(** The step of a negative pair, taken alone. *)
Lemma phase3_pair_opposite d idx1 idx2 c a :
  c < 0 -> idx1 <> idx2 ->
  (idx1 < List.length a)%nat -> (idx2 < List.length a)%nat ->
  0.1 <= at_ d idx1 <= 0.9 -> 0.1 <= at_ d idx2 <= 0.9 ->
  phase3_triggered idx1 idx2 a = true ->
  same_side (at_ a idx1) (at_ a idx2) = true ->
  opposite_sides (at_ (phase3_pair d idx1 idx2 c a) idx1)
                 (at_ (phase3_pair d idx1 idx2 c a) idx2) = true.
Proof.
  intros Hc N L1 L2 D1 D2 T S.
  destruct (phase3_pair_values d idx1 idx2 c a N L1 L2 T) as [-> ->].
  assert (Ac : 0 < Qabs c) by (rewrite Qabs_neg; lra).
  pose proof (force_positive 1.9 (at_ d idx1) ltac:(lra) D1) as F1.
  pose proof (force_positive 1.9 (at_ d idx2) ltac:(lra) D2) as F2.
  unfold phase3_forced. cbv zeta.
  apply Qltb_lt in Hc. rewrite Hc, S.
  apply same_side_true in S.
  apply clip_opposite.
  destruct (_ || _).
  - rewrite at_upd_same by exact L1.
    rewrite at_upd_other by auto.
    destruct (reflected_side (at_ a idx2) _ _ Ac F1) as [Hi Lo].
    destruct S as [[S1 S2]|[S1 S2]]; [right|left]; auto.
  - rewrite at_upd_same by exact L2.
    rewrite at_upd_other by exact N.
    destruct (reflected_side (at_ a idx1) _ _ Ac F2) as [Hi Lo].
    destruct S as [[S1 S2]|[S1 S2]]; [left|right]; auto.
Qed.

Lemma critical_pairs_distinct t1 t2 c :
  In (t1, t2, c) critical_pairs -> t1 <> t2.
Proof.
  simpl. intro H.
  repeat (destruct H as [H|H]; [injection H as <- <- <-; discriminate|]).
  destruct H.
Qed.

End CriticalPairs.

(** C4 fails as stated: with Agreeableness 0.7, Vigilance 0.65 and
    Dominance 0.8 entering Phase 3, the first pair moves Vigilance below
    0.5, then the second pair (Agreeableness, Dominance) moves
    Agreeableness below 0.5 as well, so the first pair leaves Phase 3
    with both scores on the low side.  The engine reaches these scores
    after fifteen answers, and its final scores show the same. *)
Lemma shared_trait_breaks_the_pair :
  let entry := [0.7; 0.65; 0.8] in
  let exit := _apply_phase3_adjustments avd_traits entry entry in
  In ("Agreeableness", "Vigilance", -0.60) critical_pairs
  /\ index_of "Agreeableness" avd_traits = Some 0%nat
  /\ index_of "Vigilance" avd_traits = Some 1%nat
  /\ phase3_triggered 0 1 entry = true
  /\ same_side (at_ entry 0) (at_ entry 1) = true
  /\ opposite_sides (at_ exit 0) (at_ exit 1) = false
  /\ at_ exit 0 < 0.5 /\ at_ exit 1 < 0.5
  /\ option_map (fun m => option_map (map Qred) (_calculate_base_scores m))
                (process_answers avd_quiz avd_answers)
     = Some (Some [7 # 10; 13 # 20; 4 # 5])
  /\ option_map (fun m => map Qred (trait_scores m))
                (process_answers avd_quiz avd_answers)
     = Some [1 # 4; 1871 # 6250; 4 # 5].
Proof.
  cbv zeta. repeat split; try (vm_compute; reflexivity).
  simpl. auto.
Qed.

Section WholePhase3.

(** Steps for pairs that do not name the trait at [k] leave [k]. *)
Lemma phase3_steps_other ts d ps a k :
  Forall (fun p => index_of (fst (fst p)) ts <> Some k
                   /\ index_of (snd (fst p)) ts <> Some k) ps ->
  at_ (fold_left (phase3_step ts d) ps a) k = at_ a k.
Proof.
  intro H. revert a.
  induction H as [|[[t1 t2] c] r [N1 N2] Hr IH]; simpl; intro a; auto.
  rewrite IH. now apply phase3_step_other.
Qed.

Lemma other_name_other_index x y ts k :
  index_of x ts = Some k -> x <> y -> index_of y ts <> Some k.
Proof.
  intros Hx N Hy. apply N. eapply index_of_inj; eauto.
Qed.

Lemma triggered_ext idx1 idx2 a b :
  at_ b idx1 = at_ a idx1 -> at_ b idx2 = at_ a idx2 ->
  phase3_triggered idx1 idx2 b = phase3_triggered idx1 idx2 a.
Proof. unfold phase3_triggered. now intros -> ->. Qed.

(** Conscientiousness and Flexibility belong to no other critical
    pair, so Phase 3 returns for them what their own step computes from
    the scores they entered the phase with. *)
Lemma phase3_cf_exit ts d a idx1 idx2 :
  index_of "Conscientiousness" ts = Some idx1 ->
  index_of "Flexibility" ts = Some idx2 ->
  List.length a = List.length ts ->
  exists b,
    List.length b = List.length ts
    /\ at_ b idx1 = at_ a idx1 /\ at_ b idx2 = at_ a idx2
    /\ at_ (_apply_phase3_adjustments ts a d) idx1
       = at_ (phase3_pair d idx1 idx2 (-0.72) b) idx1
    /\ at_ (_apply_phase3_adjustments ts a d) idx2
       = at_ (phase3_pair d idx1 idx2 (-0.72) b) idx2.
Proof.
  intros I1 I2 La.
  unfold _apply_phase3_adjustments.
  change critical_pairs with
    (app [("Agreeableness", "Vigilance", -0.60);
          ("Agreeableness", "Dominance", -0.55)]
         (app [("Conscientiousness", "Flexibility", -0.72)]
              [("Extraversion", "Dominance", 0.56);
               ("Openness", "Self-Transcendence", 0.70);
               ("Openness", "Abstract Orientation", 0.65)])).
  rewrite !fold_left_app.
  set (b := fold_left (phase3_step ts d) [_; _] a).
  exists b.
  assert (Hb : forall k, k = idx1 \/ k = idx2 -> at_ b k = at_ a k).
  { intros k Hk. apply phase3_steps_other.
    repeat constructor; simpl;
      destruct Hk as [->| ->];
      (eapply other_name_other_index; [eassumption | discriminate]). }
  set (post := [("Extraversion", "Dominance", 0.56); _; _]).
  rewrite (phase3_steps_other ts d post _ idx1),
          (phase3_steps_other ts d post _ idx2)
    by (repeat constructor; simpl;
        (eapply other_name_other_index; [eassumption | discriminate])).
  simpl. rewrite I1, I2.
  repeat split; auto.
  unfold b. now rewrite phase3_steps_length.
Qed.

End WholePhase3.

Section Margins.

Lemma opposite_not_same x y :
  opposite_sides x y = true -> same_side x y = false.
Proof.
  intro H. apply opposite_sides_true in H.
  destruct (same_side x y) eqn:E; [|reflexivity].
  apply same_side_true in E. lra.
Qed.

Lemma far_low x m : x < 0.5 - m -> 0 <= m -> m < Qabs (x - 0.5).
Proof. intros H Hm. rewrite Qabs_neg by lra. lra. Qed.

Lemma far_high x m : 0.5 + m < x -> 0 <= m -> m < Qabs (x - 0.5).
Proof. intros H Hm. rewrite Qabs_pos by lra. lra. Qed.

Lemma deviates_cases x m :
  0 <= m -> m < Qabs (x - 0.5) -> x < 0.5 - m \/ 0.5 + m < x.
Proof.
  intros Hm H. destruct (Qlt_le_dec x 0.5) as [L|L].
  - left. rewrite Qabs_neg in H by lra. lra.
  - right. rewrite Qabs_pos in H by lra. lra.
Qed.

Lemma clip_below x b : 0.15 < b -> x < b -> np_clip x 0.15 0.85 < b.
Proof.
  intros Hb H. unfold np_clip, pymax.
  destruct (Qltb 0.15 x) eqn:E;
    [apply Qltb_lt in E | apply Qltb_ge in E]; unfold pymin; qcases; lra.
Qed.

Lemma clip_above x b : b < 0.85 -> b < x -> b < np_clip x 0.15 0.85.
Proof.
  intros Hb H. unfold np_clip, pymax.
  destruct (Qltb 0.15 x) eqn:E;
    [apply Qltb_lt in E | apply Qltb_ge in E]; unfold pymin; qcases; lra.
Qed.

(** The force on a moved trait is at least 1.9 x 0.68, its direct score
    being a base score. *)
Lemma force_lower dv :
  0.1 <= dv <= 0.9 -> 1.292 <= 1.9 * (1.0 - Qabs (dv - 0.5) * 2 * 0.4).
Proof.
  intro Hd.
  assert (A : Qabs (dv - 0.5) <= 0.4) by (apply Qabs_Qle_condition; lra).
  lra.
Qed.

(** Reflecting a score that is more than 0.1 away from 0.5 lands more
    than 0.07 away on the other side. *)
Lemma reflected_margin s k f :
  0.55 <= k -> 1.292 <= f ->
  (0.6 < s -> 0.5 - (s - 0.5) * k * f < 0.43)
  /\ (s < 0.4 -> 0.57 < 0.5 - (s - 0.5) * k * f).
Proof.
  intros Hk Hf. split; intro H.
  - assert (A : 0.055 < (s - 0.5) * k) by nra.
    assert (B : 0.07 < (s - 0.5) * k * f) by nra. lra.
  - assert (A : 0.055 < (0.5 - s) * k) by nra.
    assert (B : 0.07 < (0.5 - s) * k * f) by nra.
    assert (C : (0.5 - s) * k * f == - ((s - 0.5) * k * f)) by ring.
    lra.
Qed.

Lemma critical_negative_strength t1 t2 c :
  In (t1, t2, c) critical_pairs -> c < 0 -> 0.55 <= Qabs c.
Proof.
  simpl. intros H Hc.
  repeat (destruct H as [H|H];
          [injection H as <- <- <-; rewrite Qabs_neg by lra; lra
          | ]);
    try (destruct H);
    try (injection H as <- <- <-; lra).
Qed.

(** The step of a negative pair whose two scores are both more than 0.1
    away from 0.5, on the same side. *)
Lemma phase3_pair_margin d idx1 idx2 c a :
  c < 0 -> 0.55 <= Qabs c -> idx1 <> idx2 ->
  (idx1 < List.length a)%nat -> (idx2 < List.length a)%nat ->
  0.1 <= at_ d idx1 <= 0.9 -> 0.1 <= at_ d idx2 <= 0.9 ->
  0.1 < Qabs (at_ a idx1 - 0.5) -> 0.1 < Qabs (at_ a idx2 - 0.5) ->
  same_side (at_ a idx1) (at_ a idx2) = true ->
  0.07 < Qabs (at_ (phase3_pair d idx1 idx2 c a) idx1 - 0.5)
  /\ 0.07 < Qabs (at_ (phase3_pair d idx1 idx2 c a) idx2 - 0.5).
Proof.
  intros Hc Hk N L1 L2 D1 D2 F1 F2 S.
  assert (T : phase3_triggered idx1 idx2 a = true).
  { unfold phase3_triggered. apply Qltb_lt in F1. now rewrite F1. }
  destruct (phase3_pair_values d idx1 idx2 c a N L1 L2 T) as [-> ->].
  pose proof (force_lower (at_ d idx1) D1) as G1.
  pose proof (force_lower (at_ d idx2) D2) as G2.
  unfold phase3_forced. cbv zeta.
  apply Qltb_lt in Hc. rewrite Hc, S.
  apply same_side_true in S.
  apply deviates_cases in F1; [|lra]. apply deviates_cases in F2; [|lra].
  assert (K : forall x, (x < 0.43 \/ 0.57 < x) ->
                0.07 < Qabs (np_clip x 0.15 0.85 - 0.5)).
  { intros x [H|H].
    - apply far_low; [|lra]. pose proof (clip_below x 0.43). lra.
    - apply far_high; [|lra]. pose proof (clip_above x 0.57). lra. }
  destruct (_ || _).
  - rewrite at_upd_same by exact L1.
    rewrite at_upd_other by auto.
    destruct (reflected_margin (at_ a idx2) _ _ Hk G1) as [Hi Lo].
    split; apply K; destruct S as [[S1 S2]|[S1 S2]];
      first [ left; apply Hi; lra | right; apply Lo; lra
            | left; lra | right; lra ].
  - rewrite at_upd_same by exact L2.
    rewrite at_upd_other by exact N.
    destruct (reflected_margin (at_ a idx1) _ _ Hk G2) as [Hi Lo].
    split; apply K; destruct S as [[S1 S2]|[S1 S2]];
      first [ left; apply Hi; lra | right; apply Lo; lra
            | left; lra | right; lra ].
Qed.

End Margins.

(** C4, as the code has it: for every critical negatively-correlated
    pair present in the registry, if on entry to the pair's own step of
    Phase 3 either score deviates from 0.5 by more than 0.1 and both sit
    on the same side of 0.5, then right after that step the two no
    longer sit on the same side: the moved score has left the partner's
    side (it may come to rest at 0.5 or next to it).  If both scores
    deviate by more than 0.1 on entry, they end on strictly opposite
    sides, each more than 0.07 away from 0.5.  For (Conscientiousness,
    Flexibility), which shares no trait with another critical pair, the
    same holds from entry to exit of Phase 3 as a whole.  Direct scores
    are base scores, hence inside [0.1, 0.9]. *)
Theorem critical_pair_consistency (ts : list string) (d a : list Q)
    (t1 t2 : string) (c : Q) (idx1 idx2 : nat) :
  In (t1, t2, c) critical_pairs -> c < 0 ->
  index_of t1 ts = Some idx1 -> index_of t2 ts = Some idx2 ->
  List.length a = List.length ts -> List.length d = List.length ts ->
  within 0.1 0.9 d ->
  phase3_triggered idx1 idx2 a = true ->
  same_side (at_ a idx1) (at_ a idx2) = true ->
  (same_side (at_ (phase3_step ts d a (t1, t2, c)) idx1)
             (at_ (phase3_step ts d a (t1, t2, c)) idx2) = false
   /\ (0.1 < Qabs (at_ a idx1 - 0.5) -> 0.1 < Qabs (at_ a idx2 - 0.5) ->
       opposite_sides (at_ (phase3_step ts d a (t1, t2, c)) idx1)
                      (at_ (phase3_step ts d a (t1, t2, c)) idx2) = true
       /\ 0.07 < Qabs (at_ (phase3_step ts d a (t1, t2, c)) idx1 - 0.5)
       /\ 0.07 < Qabs (at_ (phase3_step ts d a (t1, t2, c)) idx2 - 0.5)))
  /\ (t1 = "Conscientiousness" ->
      same_side (at_ (_apply_phase3_adjustments ts a d) idx1)
                (at_ (_apply_phase3_adjustments ts a d) idx2) = false
      /\ (0.1 < Qabs (at_ a idx1 - 0.5) -> 0.1 < Qabs (at_ a idx2 - 0.5) ->
          opposite_sides (at_ (_apply_phase3_adjustments ts a d) idx1)
                         (at_ (_apply_phase3_adjustments ts a d) idx2) = true
          /\ 0.07 < Qabs (at_ (_apply_phase3_adjustments ts a d) idx1 - 0.5)
          /\ 0.07 < Qabs (at_ (_apply_phase3_adjustments ts a d) idx2 - 0.5))).
Proof.
  intros Hin Hc I1 I2 La Ld Hd T S.
  pose proof (index_of_lt _ _ _ I1) as L1.
  pose proof (index_of_lt _ _ _ I2) as L2.
  assert (D1 : 0.1 <= at_ d idx1 <= 0.9)
    by (apply (Forall_at (fun x => 0.1 <= x <= 0.9)); [exact Hd | lia]).
  assert (D2 : 0.1 <= at_ d idx2 <= 0.9)
    by (apply (Forall_at (fun x => 0.1 <= x <= 0.9)); [exact Hd | lia]).
  assert (N : idx1 <> idx2).
  { intro E. subst idx2. apply (critical_pairs_distinct _ _ _ Hin).
    eapply index_of_inj; eauto. }
  pose proof (critical_negative_strength _ _ _ Hin Hc) as Hk.
  assert (Step : forall b,
            List.length b = List.length ts ->
            at_ b idx1 = at_ a idx1 -> at_ b idx2 = at_ a idx2 ->
            same_side (at_ (phase3_pair d idx1 idx2 c b) idx1)
                      (at_ (phase3_pair d idx1 idx2 c b) idx2) = false
            /\ (0.1 < Qabs (at_ a idx1 - 0.5) ->
                0.1 < Qabs (at_ a idx2 - 0.5) ->
                opposite_sides (at_ (phase3_pair d idx1 idx2 c b) idx1)
                               (at_ (phase3_pair d idx1 idx2 c b) idx2) = true
                /\ 0.07 < Qabs (at_ (phase3_pair d idx1 idx2 c b) idx1 - 0.5)
                /\ 0.07 < Qabs (at_ (phase3_pair d idx1 idx2 c b) idx2 - 0.5))).
  { intros b Lb B1 B2.
    assert (O : opposite_sides (at_ (phase3_pair d idx1 idx2 c b) idx1)
                               (at_ (phase3_pair d idx1 idx2 c b) idx2) = true).
    { apply phase3_pair_opposite; auto; try lia.
      - now rewrite (triggered_ext idx1 idx2 a b).
      - now rewrite B1, B2. }
    split; [now apply opposite_not_same|].
    intros F1 F2. split; [exact O|].
    apply phase3_pair_margin; auto; try lia.
    - now rewrite B1.
    - now rewrite B2.
    - now rewrite B1, B2. }
  split.
  - unfold phase3_step. rewrite I1, I2. now apply Step.
  - intros ->.
    assert (t2 = "Flexibility" /\ c = -0.72) as [-> ->].
    { simpl in Hin.
      repeat (destruct Hin as [Hin|Hin]; [split; congruence|]).
      destruct Hin. }
    destruct (phase3_cf_exit ts d a idx1 idx2 I1 I2 La)
      as (b & Lb & B1 & B2 & -> & ->).
    now apply Step.
Qed.

(** C10. The clip of Phase 3 as a side effect: for every critical pair
    with both traits in the registry, if on entry to Phase 3 either
    score deviates from 0.5 by more than 0.1, both scores leave Phase 3
    inside [0.15, 0.85]; and when the pair's step finds such a deviation
    but no inconsistency to repair, the clip of the two scores is all it
    does. *)
Theorem phase3_clip_side_effect (ts : list string) (d a : list Q)
    (t1 t2 : string) (c : Q) (idx1 idx2 : nat) :
  In (t1, t2, c) critical_pairs ->
  index_of t1 ts = Some idx1 -> index_of t2 ts = Some idx2 ->
  List.length a = List.length ts ->
  phase3_triggered idx1 idx2 a = true ->
  (0.15 <= at_ (_apply_phase3_adjustments ts a d) idx1 <= 0.85
   /\ 0.15 <= at_ (_apply_phase3_adjustments ts a d) idx2 <= 0.85)
  /\ (forall b : list Q,
        phase3_triggered idx1 idx2 b = true ->
        (if Qltb c 0 then same_side (at_ b idx1) (at_ b idx2)
         else opposite_sides (at_ b idx1) (at_ b idx2)) = false ->
        phase3_step ts d b (t1, t2, c)
        = upd idx2 (np_clip (at_ b idx2) 0.15 0.85)
              (upd idx1 (np_clip (at_ b idx1) 0.15 0.85) b)).
Proof.
  intros Hin I1 I2 La _.
  pose proof (index_of_lt _ _ _ I1) as L1.
  pose proof (index_of_lt _ _ _ I2) as L2.
  assert (N : idx1 <> idx2).
  { intro E. subst idx2. apply (critical_pairs_distinct _ _ _ Hin).
    eapply index_of_inj; eauto. }
  split.
  - unfold _apply_phase3_adjustments.
    destruct (in_split _ _ Hin) as (pre & post & ->).
    rewrite fold_left_app. simpl.
    set (b := fold_left (phase3_step ts d) pre a).
    assert (Lb : List.length b = List.length ts)
      by (unfold b; now rewrite phase3_steps_length).
    rewrite I1, I2.
    destruct (phase3_pair_clips d idx1 idx2 c b) as [R1 R2]; try lia.
    split; apply phase3_steps_keep; auto;
      rewrite phase3_pair_length; lia.
  - intros b T C. unfold phase3_step. rewrite I1, I2.
    rewrite phase3_pair_unfold, T. cbv zeta.
    assert (F : phase3_forced d idx1 idx2 c b = b).
    { unfold phase3_forced. cbv zeta.
      destruct (Qltb c 0); now rewrite C. }
    rewrite F. now rewrite at_upd_other by auto.
Qed.

(** ** The engine keeps its accumulators complete *)

Section Reachable.

Lemma mem_set_keeps {V} t k (v : V) (d : dict V) :
  Dict.mem t d = true -> Dict.mem t (Dict.set k v d) = true.
Proof.
  unfold Dict.mem. intro H.
  destruct (String.eqb t k) eqn:E.
  - apply String.eqb_eq in E. subst t. now rewrite get_set_same.
  - rewrite get_set_other; [exact H|].
    intro N. subst t. now rewrite String.eqb_refl in E.
Qed.

Lemma from_keys_mem {V} ks (v : V) k :
  In k ks -> Dict.mem k (Dict.from_keys ks v) = true.
Proof.
  unfold Dict.from_keys.
  assert (G : forall d, Dict.mem k d = true \/ In k ks ->
              Dict.mem k (fold_left (fun d k => Dict.set k v d) ks d) = true).
  { induction ks as [|k0 r IH]; simpl; intros d [H|H]; auto; try tauto.
    - apply IH. left. now apply mem_set_keeps.
    - apply IH. destruct H as [->|H]; [left|now right].
      unfold Dict.mem. now rewrite get_set_same. }
  intro H. apply G. now right.
Qed.

Lemma reset_quiz_accumulators_ok m : accumulators_ok (reset_quiz m) = true.
Proof.
  unfold accumulators_ok. simpl. apply forallb_forall. intros t Ht.
  now rewrite !from_keys_mem.
Qed.

Lemma dict_add_mem k x d d' t :
  dict_add k x d = Some d' -> Dict.mem t d = true -> Dict.mem t d' = true.
Proof.
  unfold dict_add, bind. destruct (Dict.get k d); [|discriminate].
  intro E. injection E as <-. apply mem_set_keeps.
Qed.

Lemma apply_correlations_mem ts cs score acc acc' t :
  _apply_correlations ts cs score acc = Some acc' ->
  Dict.mem t (fst acc) = true /\ Dict.mem t (snd acc) = true ->
  Dict.mem t (fst acc') = true /\ Dict.mem t (snd acc') = true.
Proof.
  unfold _apply_correlations. revert acc.
  induction cs as [|c r IH]; simpl; intros acc E H.
  - now injection E as <-.
  - unfold bind in E.
    destruct (apply_one_correlation ts score acc c) as [acc1|] eqn:E1;
      [|discriminate].
    apply (IH _ E). destruct c as [abbr sym].
    unfold apply_one_correlation, bind in E1.
    destruct (Dict.get abbr trait_abbr_to_full) as [full|];
      [|now injection E1 as <-].
    destruct (str_in full ts); [|now injection E1 as <-].
    destruct (dict_add full _ (fst acc)) as [svw|] eqn:A1; [|discriminate].
    destruct (dict_add full W_c (snd acc)) as [sw|] eqn:A2; [|discriminate].
    injection E1 as <-. simpl. destruct H as [H1 H2].
    split; eapply dict_add_mem; eauto.
Qed.

Lemma process_answer_accumulators_ok m i m' :
  process_answer m i = Some m' ->
  accumulators_ok m = true -> accumulators_ok m' = true.
Proof.
  intro E. destruct (process_answer_cases _ _ _ E)
    as [[dg ->]|(q & c & acc0 & acc & fs & sc & _ & E0 & E1 & _ & ->)];
    unfold accumulators_ok; simpl; auto.
  rewrite !forallb_forall. intros H t Ht. specialize (H t Ht).
  apply andb_true_iff in H. destruct H as [Hw Hv].
  apply andb_true_iff.
  assert (A0 : Dict.mem t (fst acc0) = true /\ Dict.mem t (snd acc0) = true).
  { unfold direct_contribution, bind in E0.
    destruct (str_in _ (traits m)).
    - destruct (dict_add _ _ (sum_value_weight m)) as [svw|] eqn:A1;
        [|discriminate].
      destruct (dict_add _ W_d (sum_weight m)) as [sw|] eqn:A2;
        [|discriminate].
      injection E0 as <-. simpl. split; eapply dict_add_mem; eauto.
    - injection E0 as <-. auto. }
  destruct (apply_correlations_mem _ _ _ _ _ t E1 A0). auto.
Qed.

End Reachable.

(** ** Boundedness along an answer stream *)

Section Streams.

(** What one answer does to the trait scores: nothing, or a
    recomputation on an engine with the same mode and registry. *)
Lemma process_answer_scores m i m' :
  process_answer m i = Some m' ->
  test_mode m' = test_mode m /\ traits m' = traits m
  /\ trait_correlations m' = trait_correlations m
  /\ (trait_scores m' = trait_scores m
      \/ exists m1 m2,
           test_mode m1 = test_mode m /\ traits m1 = traits m
           /\ trait_correlations m1 = trait_correlations m
           /\ calculate_scores m1 = Some m2
           /\ trait_scores m' = trait_scores m2).
Proof.
  unfold process_answer, bind.
  destruct (nth_error (active_questions m) (current_question m)) as [q|];
    [|discriminate].
  destruct (match q_type q with Some t => String.eqb t "demographic"
                              | None => false end).
  { destruct (q_id q); [|discriminate].
    intro E. injection E as <-. simpl. auto. }
  destruct (Z.leb _ i).
  { intro E. injection E as <-. simpl. auto. }
  destruct (q_choices q) as [choices|]; [|discriminate].
  destruct (py_index choices i) as [choice|]; [|discriminate].
  destruct (direct_contribution _ _ _) as [acc0|]; [|discriminate].
  destruct (_apply_correlations _ _ _ acc0) as [acc|]; [|discriminate].
  destruct (facet_contribution _ _ _ _) as [fs|]; [|discriminate].
  match goal with
  | |- match calculate_scores ?m1 with _ => _ end = _ -> _ =>
      destruct (calculate_scores m1) as [m2|] eqn:E3; [|discriminate];
      pose proof E3 as E4;
      destruct (calculate_scores_frame _ _ E4) as [sc ->]
  end.
  intro E. injection E as <-. simpl. repeat split. right.
  eexists. eexists.
  split; [|split; [|split; [|split; [exact E3|]]]]; reflexivity.
Qed.

(** In production mode, from scores inside [0.1, 0.9] (as after a
    reset), every answer stream leaves the trait scores there. *)
Lemma process_answers_bounded m answers m' :
  test_mode m = false ->
  within 0.1 0.9 (trait_scores m) ->
  process_answers m answers = Some m' ->
  within 0.1 0.9 (trait_scores m').
Proof.
  unfold process_answers. revert m.
  induction answers as [|i r IH]; simpl; intros m Ht H E.
  - now injection E as <-.
  - unfold bind in E. destruct (process_answer m i) as [m1|] eqn:E1;
      [|discriminate].
    destruct (process_answer_scores _ _ _ E1) as (T1 & T2 & T3 & Hs).
    apply (IH m1); auto; try congruence.
    destruct Hs as [-> | (m2 & m3 & A1 & A2 & A3 & A4 & ->)]; [exact H|].
    pose proof (calculate_scores_range m2 m3 A4) as B.
    now rewrite A1, Ht in B.
Qed.

End Streams.

(** ** The theorems at concrete engines *)


Lemma threshold_gate_witness :
  option_map trait_scores (calculate_scores gate_state)
  = Some (or_default (_calculate_base_scores gate_state) []).
Proof.
  apply (threshold_gate gate_state
           (or_default (_calculate_base_scores gate_state) [])).
  - reflexivity.
  - vm_compute. intro H. discriminate H.
  - vm_compute. reflexivity.
Defined.

Lemma calculate_scores_idempotent_witness :
  calculate_scores (or_default (calculate_scores avd_scored) avd_scored)
  = Some (or_default (calculate_scores avd_scored) avd_scored)
  /\ (forall m', same_inputs avd_scored m' ->
        option_map trait_scores (calculate_scores m')
        = Some (trait_scores
                  (or_default (calculate_scores avd_scored) avd_scored))).
Proof.
  apply (calculate_scores_idempotent avd_scored
           (or_default (calculate_scores avd_scored) avd_scored)).
  vm_compute. reflexivity.
Defined.

Lemma is_quiz_complete_spec_witness :
  exists m', end_assessment_now (ideas_quiz "Very Low" 3) = Some m'
    /\ active_questions m' = active_questions (ideas_quiz "Very Low" 3)
    /\ (active_questions (ideas_quiz "Very Low" 3) <> []
        -> is_quiz_complete m' = true)
    /\ (active_questions (ideas_quiz "Very Low" 3) = []
        -> is_quiz_complete m' = false).
Proof.
  apply (proj2 (is_quiz_complete_spec (ideas_quiz "Very Low" 3))).
  vm_compute. reflexivity.
Defined.

Lemma accumulators_monotone_witness :
  acc_le (sum_value_weight avd_quiz) (sum_value_weight avd_scored)
  /\ acc_le (sum_weight avd_quiz) (sum_weight avd_scored).
Proof.
  apply (accumulators_monotone avd_quiz avd_scored avd_answers).
  vm_compute. reflexivity.
Defined.

Lemma facet_scores_closed_interval_witness :
  facets_within 0.1 0.9
    (facet_scores
       (or_default (process_answers (ideas_quiz "Very High" 3) [0; 2; 1]%Z)
                   (ideas_quiz "Very High" 3))).
Proof.
  apply (facet_scores_closed_interval false ["Openness"]
           [("Openness", ["Ideas"])] [[0]]
           (repeat (ideas_question "Very High") 3) [0; 2; 1]%Z).
  vm_compute. reflexivity.
Defined.

Lemma pattern_damping_spec_witness :
  let pr := _detect_response_pattern (mkCounts 7 1 2 10) in
  (0.6 < high_ratio pr -> pattern_damping pr 1 = 1 * 0.8)
  /\ (0.6 < low_ratio pr -> pattern_damping pr 1 = 1 * 0.85)
  /\ (high_ratio pr <= 0.6 -> low_ratio pr <= 0.6 ->
      pattern_damping pr 1 = 1).
Proof.
  apply (pattern_damping_spec (mkCounts 7 1 2 10) 1).
  unfold counts_ok. simpl. lia.
Defined.

Lemma critical_pair_consistency_witness :
  let step := phase3_step cf_traits [0.8; 0.7] [0.8; 0.7]
                ("Conscientiousness", "Flexibility", -0.72) in
  let exit := _apply_phase3_adjustments cf_traits [0.8; 0.7] [0.8; 0.7] in
  (same_side (at_ step 0) (at_ step 1) = false
   /\ (0.1 < Qabs (at_ [0.8; 0.7] 0 - 0.5) ->
       0.1 < Qabs (at_ [0.8; 0.7] 1 - 0.5) ->
       opposite_sides (at_ step 0) (at_ step 1) = true
       /\ 0.07 < Qabs (at_ step 0 - 0.5)
       /\ 0.07 < Qabs (at_ step 1 - 0.5)))
  /\ ("Conscientiousness" = "Conscientiousness" ->
      same_side (at_ exit 0) (at_ exit 1) = false
      /\ (0.1 < Qabs (at_ [0.8; 0.7] 0 - 0.5) ->
          0.1 < Qabs (at_ [0.8; 0.7] 1 - 0.5) ->
          opposite_sides (at_ exit 0) (at_ exit 1) = true
          /\ 0.07 < Qabs (at_ exit 0 - 0.5)
          /\ 0.07 < Qabs (at_ exit 1 - 0.5))).
Proof.
  apply (critical_pair_consistency cf_traits [0.8; 0.7] [0.8; 0.7]
           "Conscientiousness" "Flexibility" (-0.72) 0 1);
    try reflexivity.
  - simpl. auto.
  - unfold within. repeat (apply Forall_cons; [lra|]). apply Forall_nil.
Defined.

Lemma phase3_clip_side_effect_witness :
  (0.15 <= at_ (_apply_phase3_adjustments avd_traits [0.9; 0.3; 0.5]
                                          [0.9; 0.3; 0.5]) 0 <= 0.85
   /\ 0.15 <= at_ (_apply_phase3_adjustments avd_traits [0.9; 0.3; 0.5]
                                             [0.9; 0.3; 0.5]) 1 <= 0.85)
  /\ (forall b : list Q,
        phase3_triggered 0 1 b = true ->
        (if Qltb (-0.60) 0 then same_side (at_ b 0) (at_ b 1)
         else opposite_sides (at_ b 0) (at_ b 1)) = false ->
        phase3_step avd_traits [0.9; 0.3; 0.5] b
                    ("Agreeableness", "Vigilance", -0.60)
        = upd 1 (np_clip (at_ b 1) 0.15 0.85)
              (upd 0 (np_clip (at_ b 0) 0.15 0.85) b)).
Proof.
  apply (phase3_clip_side_effect avd_traits [0.9; 0.3; 0.5] [0.9; 0.3; 0.5]
           "Agreeableness" "Vigilance" (-0.60) 0 1);
    try reflexivity.
  simpl. auto.
Defined.

(** A score of 0.9 next to a consistent partner leaves Phase 3 at 0.85:
    the clip alone changes it. *)
Example phase3_clip_alone :
  map Qred (_apply_phase3_adjustments avd_traits [0.9; 0.3; 0.5]
                                      [0.9; 0.3; 0.5])
  = [17 # 20; 3 # 10; 1 # 2].
Proof. vm_compute. reflexivity. Qed.

(** * Further properties of the engine *)

(** ** Reset and recomputation *)

Section Neutral.

Lemma from_keys_get {V} ks (v : V) k :
  In k ks -> Dict.get k (Dict.from_keys ks v) = Some v.
Proof.
  intro H. pose proof (from_keys_mem ks v k H) as M. unfold Dict.mem in M.
  destruct (Dict.get k (Dict.from_keys ks v)) as [x|] eqn:E; [|discriminate].
  pose proof (from_keys_values (fun y => y = v) ks v eq_refl) as F.
  rewrite Forall_forall in F. f_equal. apply F.
  eapply get_In_values; eauto.
Qed.

Lemma fold_plus_zeros xs a :
  Forall (fun x => x == 0) xs -> fold_left Qplus xs a == a.
Proof.
  intro H. revert a. induction H as [|x r Hx Hr IH]; simpl; intro a.
  - reflexivity.
  - rewrite IH, Hx. ring.
Qed.

Lemma map_opt_const {A B} (f : A -> option B) (b : B) xs :
  (forall x, In x xs -> f x = Some b) ->
  map_opt f xs = Some (repeat b (List.length xs)).
Proof.
  induction xs as [|x r IH]; simpl; intro H; [reflexivity|].
  unfold bind. rewrite (H x (or_introl eq_refl)), IH; auto.
Qed.

End Neutral.

(** X1. A reset engine is neutral: recomputing the scores right after
    [reset_quiz] returns, in either mode, and gives 0.5 for every
    trait. *)
Theorem reset_then_recompute_is_neutral (m : QuizModel) :
  option_map trait_scores (calculate_scores (reset_quiz m))
  = Some (repeat 0.5 (List.length (traits m))).
Proof.
  unfold calculate_scores, computed_scores, bind.
  assert (B : _calculate_base_scores (reset_quiz m)
              = Some (repeat 0.5 (List.length (traits m)))).
  { unfold _calculate_base_scores. simpl. apply map_opt_const.
    intros t Ht. unfold base_score_of, bind.
    rewrite (from_keys_get (traits m) 0.0 t Ht). reflexivity. }
  rewrite B. simpl.
  destruct (test_mode m); [reflexivity|].
  assert (Z : qsum (Dict.values (Dict.from_keys (traits m) 0.0)) == 0).
  { unfold qsum. apply fold_plus_zeros.
    apply (from_keys_values (fun x => x == 0)). reflexivity. }
  assert (G : Qltb 10 (qsum (Dict.values (Dict.from_keys (traits m) 0.0)))
              = false) by (apply Qltb_ge; rewrite Z; lra).
  rewrite G. reflexivity.
Qed.

(** ** The length of the score vector *)

Section Lengths.

Lemma zip_with_length {A B C} (f : A -> B -> C) xs ys :
  List.length xs = List.length ys ->
  List.length (zip_with f xs ys) = List.length xs.
Proof.
  revert ys. induction xs as [|x r IH]; intros [|y ys]; simpl; intro H;
    try discriminate; auto.
Qed.

Lemma phase1_length n pc a d corr :
  List.length (_apply_phase1_adjustments n pc a d corr) = List.length a.
Proof.
  unfold _apply_phase1_adjustments.
  apply (Forall_fold_left (fun l => List.length l = List.length a));
    [|reflexivity].
  intros b i Hb. unfold phase1_step.
  destruct (Qeqb _ _); [exact Hb|]. cbv zeta.
  destruct (Qltb 0 _); [|exact Hb].
  now rewrite upd_length.
Qed.

Lemma adjust_negative_length a d i j c params :
  List.length (_adjust_negative_correlation a d i j c params) = List.length a.
Proof.
  unfold _adjust_negative_correlation. cbv zeta. rewrite !upd_length.
  destruct (same_side _ _); auto.
  destruct (_ || _); apply upd_length.
Qed.

Lemma adjust_positive_length a d i j c params :
  List.length (_adjust_positive_correlation a d i j c params) = List.length a.
Proof.
  unfold _adjust_positive_correlation. cbv zeta. rewrite !upd_length.
  destruct (opposite_sides _ _); auto.
  destruct (Qltb _ _); apply upd_length.
Qed.

Lemma phase2_length ts a d corr :
  List.length (_apply_phase2_adjustments ts a d corr) = List.length a.
Proof.
  unfold _apply_phase2_adjustments.
  apply (Forall_fold_left (fun l => List.length l = List.length a));
    [|reflexivity].
  intros b [i j] Hb. unfold phase2_step.
  destruct (Qltb _ 0.45); [exact Hb|].
  destruct (_ && _); [|exact Hb].
  destruct (Qltb _ 0).
  - now rewrite adjust_negative_length.
  - now rewrite adjust_positive_length.
Qed.

Lemma adjustment_pipeline_length ts pc corr bs :
  List.length (adjustment_pipeline ts pc corr bs) = List.length bs.
Proof.
  unfold adjustment_pipeline, _apply_phase4_adjustments,
    _apply_phase3_adjustments. cbv zeta.
  rewrite zip_with_length;
    now rewrite phase3_steps_length, phase2_length, phase1_length.
Qed.

End Lengths.

Lemma calculate_scores_length (m m' : QuizModel) :
  calculate_scores m = Some m' ->
  List.length (trait_scores m') = List.length (traits m).
Proof.
  unfold calculate_scores, computed_scores, bind.
  destruct (_calculate_base_scores m) as [bs|] eqn:Eb; [|discriminate].
  pose proof (map_opt_length _ _ _ Eb) as L.
  destruct (test_mode m).
  - intro E. now injection E as <-.
  - destruct (Qltb 10 _); intro E; injection E as <-; simpl; auto.
    now rewrite adjustment_pipeline_length.
Qed.

(** X2. One score per trait: whatever [calculate_scores] stores has
    exactly as many entries as the registry has traits, whether or not
    the four phases ran. *)
Theorem trait_scores_length (m m' : QuizModel) :
  calculate_scores m = Some m' ->
  List.length (trait_scores m') = List.length (traits m).
Proof.
  apply calculate_scores_length.
Qed.

Lemma trait_scores_length_witness :
  List.length (trait_scores (or_default (calculate_scores avd_scored) avd_scored))
  = List.length (traits avd_scored).
Proof.
  apply (trait_scores_length avd_scored
           (or_default (calculate_scores avd_scored) avd_scored)).
  vm_compute. reflexivity.
Defined.

(** ** Demographic items *)

(** X3. A demographic item is stored and never scored: whatever the
    index, the answer is kept under the question's id and the cursor
    moves on, while accumulators, pattern counters, facet scores and
    trait scores stay as they were; and a later [reset_quiz] does not
    forget the stored answer. *)
Theorem process_answer_demographic (m : QuizModel) (i : Z) (q : Question)
    (id : string) :
  nth_error (active_questions m) (current_question m) = Some q ->
  q_type q = Some "demographic" ->
  q_id q = Some id ->
  exists m',
    process_answer m i = Some m'
    /\ Dict.get id (demographics m') = Some i
    /\ Dict.get id (demographics (reset_quiz m')) = Some i
    /\ current_question m' = S (current_question m)
    /\ sum_value_weight m' = sum_value_weight m
    /\ sum_weight m' = sum_weight m
    /\ pattern_counts m' = pattern_counts m
    /\ facet_scores m' = facet_scores m
    /\ trait_scores m' = trait_scores m.
Proof.
  intros Eq Et Ei. unfold process_answer, bind.
  rewrite Eq, Et, Ei. simpl.
  eexists. split; [reflexivity|]. simpl.
  rewrite get_set_same. repeat split.
Qed.

Lemma process_answer_demographic_witness :
  exists m',
    process_answer survey_quiz 7 = Some m'
    /\ Dict.get "age" (demographics m') = Some 7%Z
    /\ Dict.get "age" (demographics (reset_quiz m')) = Some 7%Z
    /\ current_question m' = S (current_question survey_quiz)
    /\ sum_value_weight m' = sum_value_weight survey_quiz
    /\ sum_weight m' = sum_weight survey_quiz
    /\ pattern_counts m' = pattern_counts survey_quiz
    /\ facet_scores m' = facet_scores survey_quiz
    /\ trait_scores m' = trait_scores survey_quiz.
Proof.
  apply (process_answer_demographic survey_quiz 7 age_question "age");
    reflexivity.
Defined.

(** ** The cursor *)

Section Cursor.

Lemma process_answer_cursor m i m' :
  process_answer m i = Some m' ->
  current_question m' = S (current_question m)
  /\ active_questions m' = active_questions m
  /\ user_answers m' = (user_answers m ++ [i])%list
  /\ (current_question m < List.length (active_questions m))%nat.
Proof.
  intro E.
  assert (L : (current_question m < List.length (active_questions m))%nat).
  { apply nth_error_Some. intro N. unfold process_answer, bind in E.
    rewrite N in E. discriminate. }
  destruct (process_answer_cases _ _ _ E)
    as [[dg ->]|(q & c & acc0 & acc & fs & sc & _ & _ & _ & _ & ->)];
    simpl; auto.
Qed.

End Cursor.

(** X4. One question per answer: when a stream of answers is accepted,
    the cursor has moved by the length of the stream, the answer log has
    grown by exactly that stream, and the stream was no longer than the
    questions that were left; a longer stream is never accepted. *)
Theorem process_answers_cursor (m m' : QuizModel) (answers : list Z) :
  process_answers m answers = Some m' ->
  current_question m'
    = (current_question m + List.length answers)%nat
  /\ active_questions m' = active_questions m
  /\ user_answers m' = (user_answers m ++ answers)%list
  /\ (answers <> [] ->
      (current_question m + List.length answers
       <= List.length (active_questions m))%nat).
Proof.
  unfold process_answers. revert m.
  induction answers as [|i r IH]; simpl; intros m E.
  - injection E as <-. rewrite Nat.add_0_r, app_nil_r.
    repeat split; auto. congruence.
  - unfold bind in E. destruct (process_answer m i) as [m1|] eqn:E1;
      [|discriminate].
    destruct (process_answer_cursor _ _ _ E1) as (C1 & A1 & U1 & L1).
    destruct (IH _ E) as (C & A & U & L).
    rewrite C, A, U, C1, A1, U1, <- app_assoc. simpl.
    repeat split; auto; try lia.
    intros _. destruct r as [|j r'].
    + simpl. lia.
    + rewrite C1, A1 in L. simpl in *.
      specialize (L ltac:(discriminate)). lia.
Qed.

Lemma process_answers_cursor_witness :
  current_question avd_scored
    = (current_question avd_quiz + List.length avd_answers)%nat
  /\ active_questions avd_scored = active_questions avd_quiz
  /\ user_answers avd_scored = (user_answers avd_quiz ++ avd_answers)%list
  /\ (avd_answers <> [] ->
      (current_question avd_quiz + List.length avd_answers
       <= List.length (active_questions avd_quiz))%nat).
Proof.
  apply (process_answers_cursor avd_quiz avd_scored avd_answers).
  vm_compute. reflexivity.
Defined.

(** X5. Completion counts answers: on a freshly selected question list,
    after an accepted stream of answers the quiz is complete exactly
    when the list is not empty and every question got one answer. *)
Theorem complete_after_all_answers (qs : list Question) (m0 m' : QuizModel)
    (answers : list Z) :
  process_answers (select_questions qs m0) answers = Some m' ->
  (is_quiz_complete m' = true
   <-> qs <> [] /\ List.length answers = List.length qs).
Proof.
  intro E.
  destruct (process_answers_cursor _ _ _ E) as (C & A & _ & L).
  simpl in C, A, L.
  unfold is_quiz_complete. rewrite A, C.
  destruct qs as [|q r].
  - split; [discriminate | intros [N _]; congruence].
  - rewrite Nat.leb_le. split.
    + intro H. split; [discriminate|].
      destruct answers as [|i s]; [simpl in H; lia|].
      specialize (L ltac:(discriminate)). lia.
    + intros [_ H]. lia.
Qed.

Lemma complete_after_all_answers_witness :
  is_quiz_complete avd_scored = true
  <-> (repeat (avd_question "Agreeableness" "High" "Moderate") 5
       ++ repeat (avd_question "Vigilance" "High" "Moderate") 5
       ++ repeat (avd_question "Dominance" "High" "Very High") 5)%list <> []
      /\ List.length avd_answers
         = List.length
             (repeat (avd_question "Agreeableness" "High" "Moderate") 5
              ++ repeat (avd_question "Vigilance" "High" "Moderate") 5
              ++ repeat (avd_question "Dominance" "High" "Very High") 5)%list.
Proof.
  apply (complete_after_all_answers _
           (new_model false avd_traits []
                      [[0; 0; 0]; [0; 0; 0]; [0; 0; 0]])
           avd_scored avd_answers).
  vm_compute. reflexivity.
Defined.

(** ** No lookup of a running engine fails *)

Section Running.

Lemma str_in_In x xs : str_in x xs = true <-> In x xs.
Proof.
  unfold str_in. rewrite existsb_exists. split.
  - intros (y & Hy & E). apply String.eqb_eq in E. now subst.
  - intro H. exists x. split; [exact H | apply String.eqb_refl].
Qed.

Lemma accumulators_ok_covers m :
  accumulators_ok m = true <->
  covers (traits m) (sum_value_weight m, sum_weight m).
Proof.
  unfold accumulators_ok, covers. rewrite forallb_forall. simpl.
  split; intros H t Ht; specialize (H t Ht).
  - apply andb_true_iff in H. tauto.
  - apply andb_true_iff. tauto.
Qed.

Lemma dict_add_total k x d :
  Dict.mem k d = true -> exists d', dict_add k x d = Some d'.
Proof.
  unfold Dict.mem, dict_add, bind. destruct (Dict.get k d); [eauto|discriminate].
Qed.

Lemma direct_contribution_total m p s :
  accumulators_ok m = true ->
  exists acc, direct_contribution m p s = Some acc /\ covers (traits m) acc.
Proof.
  intro H. apply accumulators_ok_covers in H.
  unfold direct_contribution, bind.
  destruct (str_in p (traits m)) eqn:Ep.
  - apply str_in_In in Ep. destruct (H p Ep) as [Hv Hw]. simpl in Hv, Hw.
    destruct (dict_add_total p (s * W_d) _ Hv) as [svw Ev].
    destruct (dict_add_total p W_d _ Hw) as [sw Ew].
    rewrite Ev, Ew. eexists. split; [reflexivity|].
    intros t Ht. destruct (H t Ht) as [Tv Tw]. simpl in *.
    split; eapply dict_add_mem; eauto.
  - eexists. split; [reflexivity | exact H].
Qed.

Lemma apply_one_correlation_total ts s acc item :
  covers ts acc ->
  exists acc', apply_one_correlation ts s acc item = Some acc'
               /\ covers ts acc'.
Proof.
  intro H. destruct item as [abbr sym]. unfold apply_one_correlation, bind.
  destruct (Dict.get abbr trait_abbr_to_full) as [full|]; [|eauto].
  destruct (str_in full ts) eqn:Ef; [|eauto].
  apply str_in_In in Ef. destruct (H full Ef) as [Hv Hw].
  destruct (dict_add_total full
              (correlated_score s (or_default (Dict.get sym adjustment_map) 0.0)
               * W_c) _ Hv) as [svw Ev].
  destruct (dict_add_total full W_c _ Hw) as [sw Ew].
  rewrite Ev, Ew. eexists. split; [reflexivity|].
  intros t Ht. destruct (H t Ht) as [Tv Tw]. simpl.
  split; eapply dict_add_mem; eauto.
Qed.

Lemma _apply_correlations_total ts cs s acc :
  covers ts acc ->
  exists acc', _apply_correlations ts cs s acc = Some acc' /\ covers ts acc'.
Proof.
  unfold _apply_correlations. revert acc.
  induction cs as [|c r IH]; simpl; intros acc H; [eauto|].
  destruct (apply_one_correlation_total ts s acc c H) as (acc1 & E1 & H1).
  unfold bind. rewrite E1. now apply IH.
Qed.

Lemma split_contains sep s :
  Str.contains sep s = true ->
  exists a b r, Str.split sep s = a :: b :: r.
Proof.
  induction s as [|c s IH]; simpl; [discriminate|].
  destruct (Ascii.eqb c sep); simpl.
  - intros _. destruct (Str.split sep s) as [|h t] eqn:E.
    + destruct s; simpl in E; [discriminate|].
      destruct (Ascii.eqb _ sep); [discriminate|].
      destruct (Str.split sep s); discriminate.
    + eauto.
  - intro H. destruct (IH H) as (a & b & r & ->). eauto.
Qed.

Lemma get_In_pair {V} k (d : dict V) v :
  Dict.get k d = Some v -> In (k, v) d.
Proof.
  induction d as [|[k0 v0] r IH]; simpl; [discriminate|].
  destruct (String.eqb k k0) eqn:E.
  - apply String.eqb_eq in E. subst k0. intro H. injection H as <-. now left.
  - intro H. right. auto.
Qed.

Lemma facet_contribution_total m p cat s :
  facet_keys_ok m = true ->
  exists fs, facet_contribution m p cat s = Some fs
    /\ forall t, Dict.mem t (facet_scores m) = true -> Dict.mem t fs = true.
Proof.
  intro H. unfold facet_contribution.
  destruct (Str.contains Str.colon cat) eqn:Ec; simpl; [|eauto].
  destruct (str_in p (traits m)); [|eauto].
  destruct (split_contains _ _ Ec) as (a & b & r & Es).
  unfold _update_facet_score, bind. rewrite Es. simpl.
  destruct (Dict.mem p (facets m)) eqn:Em; [|eauto].
  unfold Dict.mem in Em.
  destruct (Dict.get p (facets m)) as [l|] eqn:El; [|discriminate].
  unfold facet_keys_ok in H. rewrite forallb_forall in H.
  specialize (H (p, l) (get_In_pair _ _ _ El)). simpl in H.
  unfold Dict.mem in H.
  destruct (Dict.get p (facet_scores m)) as [inner|]; [|discriminate].
  destruct (Dict.get (Str.strip b) inner); [|eauto].
  eexists. split; [reflexivity|].
  intros t Ht. now apply mem_set_keeps.
Qed.

Lemma py_index_in_range {A} (xs : list A) i :
  (- Z.of_nat (List.length xs) <= i < Z.of_nat (List.length xs))%Z ->
  exists x, py_index xs i = Some x.
Proof.
  intro H. unfold py_index.
  destruct (Z.leb 0 i) eqn:E0.
  - apply Z.leb_le in E0.
    destruct (nth_error xs (Z.to_nat i)) eqn:E; [eauto|].
    apply nth_error_None in E. lia.
  - apply Z.leb_gt in E0.
    destruct (Z.leb (- Z.of_nat (List.length xs)) i) eqn:E1.
    + destruct (nth_error xs (Z.to_nat (Z.of_nat (List.length xs) + i))) eqn:E;
        [eauto|].
      apply nth_error_None in E. lia.
    + apply Z.leb_gt in E1. lia.
Qed.

Lemma py_index_below {A} (xs : list A) i :
  (i < - Z.of_nat (List.length xs))%Z -> py_index xs i = None.
Proof.
  intro H. unfold py_index.
  destruct (Z.leb 0 i) eqn:E0; [apply Z.leb_le in E0; lia|].
  destruct (Z.leb (- Z.of_nat (List.length xs)) i) eqn:E1;
    [apply Z.leb_le in E1; lia | reflexivity].
Qed.

Lemma neutral_facets_mem fl fs t :
  Dict.mem t fs = true \/ In t (map fst fl) ->
  Dict.mem t (neutral_facets fl fs) = true.
Proof.
  unfold neutral_facets. revert fs.
  induction fl as [|[k l] r IH]; simpl; intros fs [H|H]; auto; try tauto.
  - apply IH. left. now apply mem_set_keeps.
  - apply IH. destruct H as [->|H]; [left|now right].
    unfold Dict.mem. now rewrite get_set_same.
Qed.

Lemma reset_quiz_engine_ok m : engine_ok (reset_quiz m) = true.
Proof.
  unfold engine_ok. rewrite reset_quiz_accumulators_ok. simpl.
  unfold facet_keys_ok. simpl. apply forallb_forall. intros [t l] H. simpl.
  apply neutral_facets_mem. right. now apply (in_map fst) in H.
Qed.

Lemma process_answer_engine_ok m i m' :
  process_answer m i = Some m' ->
  engine_ok m = true -> engine_ok m' = true.
Proof.
  intros E H. unfold engine_ok in *. apply andb_true_iff in H.
  destruct H as [Ha Hf].
  rewrite (process_answer_accumulators_ok _ _ _ E Ha). simpl.
  destruct (process_answer_cases _ _ _ E)
    as [[dg ->]|(q & c & acc0 & acc & fs & sc & _ & _ & _ & E2 & ->)];
    [exact Hf|].
  destruct (facet_contribution_total m
              (primary_trait_of (or_default (q_category q) ""))
              (or_default (q_category q) "") (score_of_choice c) Hf)
    as (fs' & E2' & K).
  rewrite E2 in E2'. injection E2' as <-.
  unfold facet_keys_ok in *. simpl. rewrite forallb_forall in *.
  intros tf Htf. apply K. now apply Hf.
Qed.

Lemma process_answers_engine_ok m answers m' :
  process_answers m answers = Some m' ->
  engine_ok m = true -> engine_ok m' = true.
Proof.
  unfold process_answers. revert m.
  induction answers as [|i r IH]; simpl; intros m E H.
  - now injection E as <-.
  - unfold bind in E. destruct (process_answer m i) as [m1|] eqn:E1;
      [|discriminate].
    apply (IH _ E). eapply process_answer_engine_ok; eauto.
Qed.

End Running.

(** X6. Recomputation never raises on a running engine: after any
    accepted stream of answers on a freshly selected question list, both
    [calculate_scores] and [end_assessment_now] return, and a further
    [reset_quiz] gives an engine of which the same is true. *)
Theorem running_engine_recomputes (qs : list Question) (m0 m' : QuizModel)
    (answers : list Z) :
  process_answers (select_questions qs m0) answers = Some m' ->
  (exists m1, calculate_scores m' = Some m1)
  /\ (exists m2, end_assessment_now m' = Some m2)
  /\ engine_ok (reset_quiz m') = true.
Proof.
  intro E.
  assert (H : engine_ok m' = true).
  { eapply process_answers_engine_ok; [exact E|].
    apply reset_quiz_engine_ok. }
  unfold engine_ok in H. apply andb_true_iff in H. destruct H as [Ha _].
  destruct (calculate_scores_total m' Ha) as [sc Esc].
  split; [eauto|]. split; [|apply reset_quiz_engine_ok].
  unfold end_assessment_now, bind. rewrite Esc. eauto.
Qed.

Lemma running_engine_recomputes_witness :
  (exists m1, calculate_scores avd_scored = Some m1)
  /\ (exists m2, end_assessment_now avd_scored = Some m2)
  /\ engine_ok (reset_quiz avd_scored) = true.
Proof.
  apply (running_engine_recomputes
           (active_questions avd_quiz)
           (new_model false avd_traits []
                      [[0; 0; 0]; [0; 0; 0]; [0; 0; 0]])
           avd_scored avd_answers).
  vm_compute. reflexivity.
Defined.

(** X7. When scoring raises: on an engine whose dictionaries are
    complete and whose correlation matrix is square, one row and one
    column per trait, for an active question that is not demographic and
    has a choice list, [process_answer] raises exactly for the indices
    below minus the number of choices; every other index, negative ones
    that count from the end included, is accepted and keeps the
    dictionaries complete. *)
Theorem process_answer_raises_iff (m : QuizModel) (i : Z) (q : Question)
    (choices : list Choice) :
  engine_ok m = true ->
  matrix_ok (List.length (traits m)) (trait_correlations m) = true ->
  nth_error (active_questions m) (current_question m) = Some q ->
  q_type q <> Some "demographic" ->
  q_choices q = Some choices ->
  (process_answer m i = None
   <-> (i < - Z.of_nat (List.length choices))%Z)
  /\ (forall m', process_answer m i = Some m' -> engine_ok m' = true).
Proof.
  intros H _ Eq Ht Ec.
  split; [|intros m' E; eapply process_answer_engine_ok; eauto].
  pose proof H as H'. unfold engine_ok in H'. apply andb_true_iff in H'.
  destruct H' as [Ha Hf].
  assert (D : match q_type q with
              | Some t => String.eqb t "demographic"
              | None => false
              end = false).
  { destruct (q_type q) as [t|]; [|reflexivity].
    destruct (String.eqb t "demographic") eqn:E; [|reflexivity].
    apply String.eqb_eq in E. congruence. }
  destruct (Z_lt_le_dec i (- Z.of_nat (List.length choices))) as [Lo|Lo].
  - split; [auto|]. intros _.
    unfold process_answer, bind. rewrite Eq, D, Ec. simpl.
    assert (G : (Z.of_nat (List.length choices) <=? i)%Z = false)
      by (apply Z.leb_gt; lia).
    rewrite G. now rewrite py_index_below.
  - split; [|lia]. intro N. exfalso.
    destruct (Z_lt_le_dec i (Z.of_nat (List.length choices))) as [Hi|Hi].
    + destruct (py_index_in_range choices i ltac:(lia)) as [c Ec'].
      destruct (direct_contribution_total m
                  (primary_trait_of (or_default (q_category q) ""))
                  (score_of_choice c) Ha) as (acc0 & E0 & C0).
      destruct (_apply_correlations_total (traits m)
                  (or_default (c_correlations c) []) (score_of_choice c)
                  acc0 C0) as (acc & E1 & C1).
      destruct (facet_contribution_total m
                  (primary_trait_of (or_default (q_category q) ""))
                  (or_default (q_category q) "") (score_of_choice c) Hf)
        as (fs & E2 & _).
      unfold process_answer, bind in N. rewrite Eq, D, Ec in N. simpl in N.
      assert (G : (Z.of_nat (List.length choices) <=? i)%Z = false)
        by (apply Z.leb_gt; lia).
      rewrite G, Ec', E0, E1, E2 in N.
      match type of N with
      | match calculate_scores ?m1 with _ => _ end = None =>
          destruct (calculate_scores_total m1) as [sc Esc];
          [apply accumulators_ok_covers; simpl; destruct acc; exact C1|];
          rewrite Esc in N
      end.
      discriminate.
    + rewrite (process_answer_skips_past_end m i q Eq Ht) in N;
        [discriminate|].
      rewrite Ec. simpl. lia.
Qed.

Lemma process_answer_raises_iff_witness :
  (process_answer (ideas_quiz "Low" 2) (-3) = None
   <-> (-3 < - Z.of_nat (List.length
                           [mkChoice (Some "Low") None;
                            mkChoice (Some "Moderate") None;
                            mkChoice (Some "Very High") None]))%Z)
  /\ (forall m', process_answer (ideas_quiz "Low" 2) (-3) = Some m' ->
                 engine_ok m' = true).
Proof.
  apply (process_answer_raises_iff (ideas_quiz "Low" 2) (-3)
           (ideas_question "Low"));
    try reflexivity.
  discriminate.
Defined.

(** ** Facets *)

Section FacetFrame.

Lemma _update_facet_score_frame fl fs p cat s fs' t f :
  _update_facet_score fl fs p cat s = Some fs' ->
  (t <> p \/ f <> facet_of cat ->
   facet_score_of fs' t f = facet_score_of fs t f)
  /\ (facet_score_of fs' t f = None <-> facet_score_of fs t f = None).
Proof.
  unfold _update_facet_score, bind, facet_of.
  destruct (nth_error (Str.split Str.colon cat) 1) as [seg|] eqn:Es;
    [|discriminate].
  rewrite (nth_error_nth _ _ "" Es).
  destruct (Dict.mem p fl); [|intro E; injection E as <-; tauto].
  destruct (Dict.get p fs) as [inner|] eqn:Ei; [|discriminate].
  destruct (Dict.get (Str.strip seg) inner) as [cur|] eqn:Ec;
    [|intro E; injection E as <-; tauto].
  intro E. injection E as <-. unfold facet_score_of, bind.
  destruct (String.eqb t p) eqn:Etp.
  - apply String.eqb_eq in Etp. subst t. rewrite get_set_same, Ei.
    destruct (String.eqb f (Str.strip seg)) eqn:Ef.
    + apply String.eqb_eq in Ef. subst f. rewrite get_set_same, Ec.
      split; [intros [N|N]; congruence | split; discriminate].
    + assert (N : f <> Str.strip seg)
        by (intro N; subst f; now rewrite String.eqb_refl in Ef).
      rewrite get_set_other by exact N. tauto.
  - assert (N : t <> p)
      by (intro N; subst t; now rewrite String.eqb_refl in Etp).
    rewrite get_set_other by exact N. tauto.
Qed.

End FacetFrame.

(** X8. An answer touches one facet at most: for a question whose
    category text is ASCII, after [process_answer] every facet score
    other than the one the category names (its facet under its primary
    trait) is what it was, and no facet entry has appeared or
    disappeared. *)
Theorem process_answer_facet_frame (m m' : QuizModel) (i : Z) (q : Question)
    (t f : string) :
  nth_error (active_questions m) (current_question m) = Some q ->
  ascii_only (or_default (q_category q) "") = true ->
  process_answer m i = Some m' ->
  (t <> primary_trait_of (or_default (q_category q) "")
   \/ f <> facet_of (or_default (q_category q) "") ->
   facet_score_of (facet_scores m') t f = facet_score_of (facet_scores m) t f)
  /\ (facet_score_of (facet_scores m') t f = None
      <-> facet_score_of (facet_scores m) t f = None).
Proof.
  intros Eq _ E.
  destruct (process_answer_cases _ _ _ E)
    as [[dg ->]|(q' & c & acc0 & acc & fs & sc & Eq' & _ & _ & E2 & ->)];
    simpl; [tauto|].
  rewrite Eq in Eq'. injection Eq' as <-.
  unfold facet_contribution in E2.
  destruct (_ && _).
  - eapply _update_facet_score_frame; eauto.
  - injection E2 as <-. tauto.
Qed.

Lemma process_answer_facet_frame_witness :
  (("Openness" : string)
     <> primary_trait_of (or_default (q_category (ideas_question "High")) "")
   \/ ("Fantasy" : string)
      <> facet_of (or_default (q_category (ideas_question "High")) "") ->
   facet_score_of
     (facet_scores (or_default (process_answers survey_quiz [7; 0]%Z)
                               survey_quiz))
     "Openness" "Fantasy"
   = facet_score_of
       (facet_scores (or_default (process_answer survey_quiz 7) survey_quiz))
       "Openness" "Fantasy")
  /\ (facet_score_of
        (facet_scores (or_default (process_answers survey_quiz [7; 0]%Z)
                                  survey_quiz))
        "Openness" "Fantasy" = None
      <-> facet_score_of
            (facet_scores (or_default (process_answer survey_quiz 7)
                                      survey_quiz))
            "Openness" "Fantasy" = None).
Proof.
  apply (process_answer_facet_frame
           (or_default (process_answer survey_quiz 7) survey_quiz)
           (or_default (process_answers survey_quiz [7; 0]%Z) survey_quiz)
           0 (ideas_question "High") "Openness" "Fantasy");
    vm_compute; reflexivity.
Defined.

(** ** Pattern tallies along a stream *)

Section Tallies.

Lemma count_answer_total v pc :
  pc_total (count_answer v pc) = (pc_total pc + 1)%Z.
Proof.
  unfold count_answer.
  destruct (str_in v _); [|destruct (str_in v _)]; reflexivity.
Qed.

Lemma process_answers_total_le m answers m' :
  process_answers m answers = Some m' ->
  (pc_total (pattern_counts m')
   <= pc_total (pattern_counts m) + Z.of_nat (List.length answers))%Z.
Proof.
  unfold process_answers. revert m.
  induction answers as [|i r IH]; intros m E.
  - simpl in E. injection E as <-. simpl. lia.
  - cbn [fold_opt] in E. unfold bind in E.
    destruct (process_answer m i) as [m1|] eqn:E1; [|discriminate].
    specialize (IH _ E).
    assert (S1 : (pc_total (pattern_counts m1)
                  <= pc_total (pattern_counts m) + 1)%Z).
    { destruct (process_answer_cases _ _ _ E1)
        as [[dg ->]|(q & c & acc0 & acc & fs & sc & _ & _ & _ & _ & ->)];
        cbn [pattern_counts advance]; [lia|].
      rewrite count_answer_total. lia. }
    cbn [List.length]. lia.
Qed.

Lemma biases_exclusive pc :
  counts_ok pc ->
  is_high_biased (_detect_response_pattern pc)
  && is_low_biased (_detect_response_pattern pc) = false.
Proof.
  intro Hc. apply andb_false_iff.
  destruct (is_high_biased (_detect_response_pattern pc)) eqn:Eh; [|now left].
  right. destruct (is_low_biased (_detect_response_pattern pc)) eqn:El;
    [|reflexivity].
  exfalso. simpl in Eh, El. apply Qltb_lt in Eh, El.
  destruct (Z_lt_le_dec (pc_total pc) 1) as [Ht|Ht].
  - destruct (detect_ratios_empty pc Hc Ht) as [E1 E2]. simpl in E1, E2. lra.
  - rewrite Z.max_r in Eh, El by exact Ht.
    apply ratio_gt in Eh, El; try exact Ht.
    destruct Hc as (H1 & H2 & H3 & H4).
    assert (S : inject_Z (pc_high pc) + inject_Z (pc_low pc)
                <= inject_Z (pc_total pc)).
    { rewrite <- inject_Z_plus, <- Zle_Qle. lia. }
    lra.
Qed.

End Tallies.

(** X10. The pattern tallies stay consistent: after any accepted stream
    of answers on a freshly selected question list, the high, low and
    moderate tallies are non-negative and add up to the total, the total
    is at most the number of answers given (skipped and demographic
    answers are not counted), and the respondent is never classified
    high-biased and low-biased at once. *)
Theorem pattern_tallies_consistent (qs : list Question) (m0 m' : QuizModel)
    (answers : list Z) :
  process_answers (select_questions qs m0) answers = Some m' ->
  counts_ok (pattern_counts m')
  /\ (pc_total (pattern_counts m') <= Z.of_nat (List.length answers))%Z
  /\ is_high_biased (_detect_response_pattern (pattern_counts m'))
     && is_low_biased (_detect_response_pattern (pattern_counts m')) = false.
Proof.
  intro E.
  assert (C : counts_ok (pattern_counts m')).
  { eapply process_answers_counts_ok; [|exact E].
    unfold counts_ok. simpl. lia. }
  split; [exact C|]. split.
  - pose proof (process_answers_total_le _ _ _ E) as L. simpl in L. lia.
  - now apply biases_exclusive.
Qed.

Lemma pattern_tallies_consistent_witness :
  counts_ok (pattern_counts avd_scored)
  /\ (pc_total (pattern_counts avd_scored)
      <= Z.of_nat (List.length avd_answers))%Z
  /\ is_high_biased (_detect_response_pattern (pattern_counts avd_scored))
     && is_low_biased (_detect_response_pattern (pattern_counts avd_scored))
     = false.
Proof.
  apply (pattern_tallies_consistent
           (active_questions avd_quiz)
           (new_model false avd_traits []
                      [[0; 0; 0]; [0; 0; 0]; [0; 0; 0]])
           avd_scored avd_answers).
  vm_compute. reflexivity.
Defined.

(** ** Which accumulators an answer touches *)

Section AccumulatorFrame.

Lemma dict_add_other k x d d' t :
  dict_add k x d = Some d' -> t <> k -> Dict.get t d' = Dict.get t d.
Proof.
  unfold dict_add, bind. destruct (Dict.get k d); [|discriminate].
  intro E. injection E as <-. intro N. now apply get_set_other.
Qed.

Lemma _apply_correlations_frame ts cs s acc acc' t :
  _apply_correlations ts cs s acc = Some acc' ->
  (forall abbr sym, In (abbr, sym) cs ->
                    Dict.get abbr trait_abbr_to_full <> Some t) ->
  Dict.get t (fst acc') = Dict.get t (fst acc)
  /\ Dict.get t (snd acc') = Dict.get t (snd acc).
Proof.
  unfold _apply_correlations. revert acc.
  induction cs as [|c r IH]; intros acc E H.
  - simpl in E. injection E as <-. auto.
  - cbn [fold_opt] in E. unfold bind in E.
    destruct (apply_one_correlation ts s acc c) as [acc1|] eqn:E1;
      [|discriminate].
    destruct (IH _ E) as [A B].
    { intros abbr sym Hin. apply (H abbr sym). now right. }
    rewrite A, B. destruct c as [abbr sym].
    specialize (H abbr sym (or_introl eq_refl)).
    unfold apply_one_correlation, bind in E1.
    destruct (Dict.get abbr trait_abbr_to_full) as [full|];
      [|injection E1 as <-; auto].
    destruct (str_in full ts); [|injection E1 as <-; auto].
    destruct (dict_add full _ (fst acc)) as [svw|] eqn:A1; [|discriminate].
    destruct (dict_add full W_c (snd acc)) as [sw|] eqn:A2; [|discriminate].
    injection E1 as <-. simpl.
    assert (N : t <> full) by congruence.
    split; eapply dict_add_other; eauto.
Qed.

(** The scoring path with the chosen choice in hand. *)
Lemma process_answer_scored m i m' q :
  nth_error (active_questions m) (current_question m) = Some q ->
  process_answer m i = Some m' ->
  (sum_value_weight m' = sum_value_weight m
   /\ sum_weight m' = sum_weight m)
  \/ (exists choices c acc0 acc,
        q_choices q = Some choices
        /\ py_index choices i = Some c
        /\ direct_contribution m
             (primary_trait_of (or_default (q_category q) ""))
             (score_of_choice c) = Some acc0
        /\ _apply_correlations (traits m)
             (or_default (c_correlations c) [])
             (score_of_choice c) acc0 = Some acc
        /\ sum_value_weight m' = fst acc
        /\ sum_weight m' = snd acc).
Proof.
  intro Eq. unfold process_answer, bind. rewrite Eq.
  destruct (match q_type q with Some t => String.eqb t "demographic"
                              | None => false end).
  { destruct (q_id q); [|discriminate].
    intro E. injection E as <-. left. auto. }
  destruct (Z.leb _ i).
  { intro E. injection E as <-. left. auto. }
  destruct (q_choices q) as [choices|]; [|discriminate].
  destruct (py_index choices i) as [c|] eqn:Ei; [|discriminate].
  destruct (direct_contribution _ _ _) as [acc0|] eqn:E0; [|discriminate].
  destruct (_apply_correlations _ _ _ acc0) as [acc|] eqn:E1; [|discriminate].
  destruct (facet_contribution _ _ _ _) as [fs|]; [|discriminate].
  match goal with
  | |- match calculate_scores ?m1 with _ => _ end = _ -> _ =>
      destruct (calculate_scores m1) as [m2|] eqn:E3; [|discriminate];
      destruct (calculate_scores_frame _ _ E3) as [sc ->]
  end.
  intro E. injection E as <-. right.
  exists choices, c, acc0, acc. simpl. repeat split; auto.
Qed.

End AccumulatorFrame.

(** X11. An answer only feeds the traits it names: for a question whose
    category text is ASCII, after [process_answer] the two accumulators
    of a trait that is neither the question's primary trait nor the full
    name of an abbreviation in the chosen choice's correlations are what
    they were. *)
Theorem process_answer_accumulator_frame (m m' : QuizModel) (i : Z)
    (q : Question) (t : string) :
  nth_error (active_questions m) (current_question m) = Some q ->
  ascii_only (or_default (q_category q) "") = true ->
  process_answer m i = Some m' ->
  t <> primary_trait_of (or_default (q_category q) "") ->
  (forall c abbr sym,
      py_index (or_default (q_choices q) []) i = Some c ->
      In (abbr, sym) (or_default (c_correlations c) []) ->
      Dict.get abbr trait_abbr_to_full <> Some t) ->
  Dict.get t (sum_value_weight m') = Dict.get t (sum_value_weight m)
  /\ Dict.get t (sum_weight m') = Dict.get t (sum_weight m).
Proof.
  intros Eq _ E Np Hc.
  destruct (process_answer_scored m i m' q Eq E)
    as [[-> ->]|(choices & c & acc0 & acc & Ec & Ei & E0 & E1 & -> & ->)];
    [auto|].
  rewrite Ec in Hc. simpl in Hc.
  destruct (_apply_correlations_frame _ _ _ _ _ t E1) as [A B].
  { intros abbr sym Hin. eapply Hc; eauto. }
  rewrite A, B.
  unfold direct_contribution, bind in E0.
  destruct (str_in _ (traits m)); [|injection E0 as <-; auto].
  destruct (dict_add _ _ (sum_value_weight m)) as [svw|] eqn:A1;
    [|discriminate].
  destruct (dict_add _ W_d (sum_weight m)) as [sw|] eqn:A2; [|discriminate].
  injection E0 as <-. simpl.
  split; eapply dict_add_other; eauto.
Qed.

Lemma process_answer_accumulator_frame_witness :
  Dict.get "Vigilance"
     (sum_value_weight (or_default (process_answer avd_quiz 0) avd_quiz))
   = Dict.get "Vigilance" (sum_value_weight avd_quiz)
  /\ Dict.get "Vigilance"
       (sum_weight (or_default (process_answer avd_quiz 0) avd_quiz))
     = Dict.get "Vigilance" (sum_weight avd_quiz).
Proof.
  apply (process_answer_accumulator_frame avd_quiz
           (or_default (process_answer avd_quiz 0) avd_quiz) 0
           (avd_question "Agreeableness" "High" "Moderate") "Vigilance").
  - reflexivity.
  - reflexivity.
  - vm_compute. reflexivity.
  - vm_compute. discriminate.
  - intros c abbr sym Hc Hin. simpl in Hc. injection Hc as <-.
    simpl in Hin. destruct Hin.
Defined.

(** ** Phase 4 as the last word *)

Section Phase4.

(** [phase4_one] is its seven passes in order. *)
Lemma phase4_one_passes a d :
  phase4_one a d =
  ceiling_pass (Qleb 0.2 d && Qltb d 0.3) 0.65
    (ceiling_pass (Qleb 0.1 d && Qltb d 0.2) 0.5
       (ceiling_pass (Qltb d 0.1) 0.35
          (floor_pass (Qltb 0.6 d && Qleb d 0.7) 0.25
             (floor_pass (Qltb 0.7 d && Qleb d 0.8) 0.35
                (floor_pass (Qltb 0.8 d && Qleb d 0.9) 0.5
                   (floor_pass (Qltb 0.9 d) 0.65 a)))))).
Proof. reflexivity. Qed.



Lemma floor_pass_off mask c a : mask = false -> floor_pass mask c a = a.
Proof. now intros ->. Qed.

Lemma floor_pass_idle mask c a : c <= a -> floor_pass mask c a = a.
Proof.
  intro H. unfold floor_pass. apply Qltb_ge in H. rewrite H.
  now rewrite andb_false_r.
Qed.



Lemma ceiling_pass_off mask c a : mask = false -> ceiling_pass mask c a = a.
Proof. now intros ->. Qed.

Lemma ceiling_pass_idle mask c a : a <= c -> ceiling_pass mask c a = a.
Proof.
  intro H. unfold ceiling_pass. apply Qltb_ge in H. rewrite H.
  now rewrite andb_false_r.
Qed.








End Phase4.



(** ** Without correlations the pipeline changes nothing *)

Section Uncorrelated.

Lemma zero_row_sum row :
  Forall (fun c => c == 0) row -> Qeqb (qsum (map Qabs row)) 0 = true.
Proof.
  intro H. unfold Qeqb. apply Qeq_bool_iff. unfold qsum.
  apply fold_plus_zeros. induction H as [|c r Hc Hr IH]; simpl; constructor.
  - rewrite Hc. reflexivity.
  - exact IH.
Qed.

Lemma zero_matrix_row corr i :
  (forall row c, In row corr -> In c row -> c == 0) ->
  Forall (fun c => c == 0) (nth i corr []).
Proof.
  intro H. destruct (nth_in_or_default i corr []) as [Hin|E].
  - apply Forall_forall. intros c Hc. eapply H; eauto.
  - rewrite E. constructor.
Qed.

Lemma zero_matrix_entry corr i j :
  (forall row c, In row corr -> In c row -> c == 0) ->
  nth j (nth i corr []) 0 == 0.
Proof.
  intro H. pose proof (zero_matrix_row corr i H) as R.
  rewrite Forall_forall in R.
  destruct (nth_in_or_default j (nth i corr []) 0) as [Hin|E].
  - now apply R.
  - rewrite E. reflexivity.
Qed.

Lemma phase1_zero_matrix n pc a d corr :
  (forall row c, In row corr -> In c row -> c == 0) ->
  _apply_phase1_adjustments n pc a d corr = a.
Proof.
  intro H. unfold _apply_phase1_adjustments.
  apply (Forall_fold_left (fun l => l = a)); [|reflexivity].
  intros b i ->. unfold phase1_step.
  now rewrite (zero_row_sum _ (zero_matrix_row corr i H)).
Qed.

Lemma phase2_zero_matrix ts a d corr :
  (forall row c, In row corr -> In c row -> c == 0) ->
  _apply_phase2_adjustments ts a d corr = a.
Proof.
  intro H. unfold _apply_phase2_adjustments.
  apply (Forall_fold_left (fun l => l = a)); [|reflexivity].
  intros b [i j] ->. unfold phase2_step.
  assert (W : Qltb (Qabs (nth j (nth i corr []) 0)) 0.45 = true).
  { apply Qltb_lt. rewrite (zero_matrix_entry corr i j H). reflexivity. }
  now rewrite W.
Qed.

Lemma phase3_no_pair ts a d :
  (forall t1 t2 c, In (t1, t2, c) critical_pairs ->
                   index_of t1 ts = None \/ index_of t2 ts = None) ->
  _apply_phase3_adjustments ts a d = a.
Proof.
  unfold _apply_phase3_adjustments.
  generalize critical_pairs as ps.
  induction ps as [|[[t1 t2] c] r IH]; simpl; intro H; [reflexivity|].
  assert (S : phase3_step ts d a (t1, t2, c) = a).
  { unfold phase3_step.
    destruct (H t1 t2 c (or_introl eq_refl)) as [-> | E]; [reflexivity|].
    rewrite E. now destruct (index_of t1 ts). }
  unfold phase3_step in S. rewrite S. apply IH.
  intros u1 u2 c' Hin. apply (H u1 u2 c'). now right.
Qed.

Lemma phase4_one_same d : phase4_one d d = d.
Proof.
  rewrite phase4_one_passes.
  assert (F : forall lo hi c, c <= lo ->
                floor_pass (Qltb lo d && Qleb d hi) c d = d).
  { intros lo hi c Hc. destruct (Qltb lo d) eqn:E.
    - apply Qltb_lt in E. apply floor_pass_idle. lra.
    - now apply floor_pass_off. }
  assert (G : forall lo hi c, hi <= c ->
                ceiling_pass (Qleb lo d && Qltb d hi) c d = d).
  { intros lo hi c Hc. destruct (Qltb d hi) eqn:E.
    - apply Qltb_lt in E. apply ceiling_pass_idle. lra.
    - apply ceiling_pass_off. now rewrite andb_false_r. }
  assert (F1 : floor_pass (Qltb 0.9 d) 0.65 d = d).
  { destruct (Qltb 0.9 d) eqn:E.
    - apply Qltb_lt in E. apply floor_pass_idle. lra.
    - now apply floor_pass_off. }
  assert (G1 : ceiling_pass (Qltb d 0.1) 0.35 d = d).
  { destruct (Qltb d 0.1) eqn:E.
    - apply Qltb_lt in E. apply ceiling_pass_idle. lra.
    - now apply ceiling_pass_off. }
  rewrite F1, !F, G1, !G by lra. reflexivity.
Qed.

Lemma phase4_same bs : _apply_phase4_adjustments bs bs = bs.
Proof.
  unfold _apply_phase4_adjustments.
  induction bs as [|x r IH]; simpl; [reflexivity|].
  now rewrite phase4_one_same, IH.
Qed.

End Uncorrelated.

(** X14. No correlation, no adjustment: when the correlation matrix is
    square, one row and one column per trait, every entry of it is zero
    and no critical pair has both of its traits in the registry,
    [calculate_scores] stores exactly the base scores, however much
    weight has been accumulated and in either mode. *)
Theorem uncorrelated_scores_are_base_scores (m : QuizModel) (bs : list Q) :
  matrix_ok (List.length (traits m)) (trait_correlations m) = true ->
  (forall row c, In row (trait_correlations m) -> In c row -> c == 0) ->
  (forall t1 t2 c, In (t1, t2, c) critical_pairs ->
     index_of t1 (traits m) = None \/ index_of t2 (traits m) = None) ->
  _calculate_base_scores m = Some bs ->
  option_map trait_scores (calculate_scores m) = Some bs.
Proof.
  intros _ Hz Hp Eb. unfold calculate_scores, computed_scores, bind.
  rewrite Eb. destruct (test_mode m); [reflexivity|].
  destruct (Qltb 10 _); [|reflexivity]. simpl.
  unfold adjustment_pipeline. cbv zeta.
  rewrite (phase1_zero_matrix _ _ _ _ _ Hz), (phase2_zero_matrix _ _ _ _ Hz),
    (phase3_no_pair _ _ _ Hp), phase4_same.
  reflexivity.
Qed.

Lemma uncorrelated_scores_are_base_scores_witness :
  option_map trait_scores (calculate_scores plain_scored)
  = Some (or_default (_calculate_base_scores plain_scored) []).
Proof.
  apply (uncorrelated_scores_are_base_scores plain_scored
           (or_default (_calculate_base_scores plain_scored) [])).
  - vm_compute. reflexivity.
  - intros row c Hr Hc.
    assert (E : trait_correlations plain_scored = [[0; 0]; [0; 0]])
      by (vm_compute; reflexivity).
    rewrite E in Hr. simpl in Hr.
    destruct Hr as [<-|[<-|[]]]; simpl in Hc;
      destruct Hc as [<-|[<-|[]]]; reflexivity.
  - intros t1 t2 c Hin.
    assert (E : traits plain_scored = ["Emotionality"; "Honesty-Humility"])
      by (vm_compute; reflexivity).
    rewrite E. simpl in Hin.
    repeat (destruct Hin as [Hin|Hin];
            [injection Hin as <- <- <-; left; reflexivity|]).
    destruct Hin.
  - vm_compute. reflexivity.
Defined.

(** ** Positive critical pairs *)

Section PositivePairs.

(** Shifting 0.5 by a positive multiple of a deviation keeps its side. *)
Lemma shifted_side s k f :
  0 < k -> 0 < f ->
  (0.5 < s -> 0.5 < 0.5 + (s - 0.5) * k * f)
  /\ (s < 0.5 -> 0.5 + (s - 0.5) * k * f < 0.5).
Proof.
  intros Hk Hf. assert (P : 0 < k * f) by nra.
  split; intro H.
  - assert (0 < (s - 0.5) * (k * f)) by nra. nra.
  - assert (0 < (0.5 - s) * (k * f)) by nra. nra.
Qed.

Lemma clip_same_side x y :
  (0.5 < x /\ 0.5 < y) \/ (x < 0.5 /\ y < 0.5) ->
  same_side (np_clip x 0.15 0.85) (np_clip y 0.15 0.85) = true.
Proof.
  intro H. apply same_side_true.
  destruct H as [[Hx Hy]|[Hx Hy]]; [left|right];
    auto using clip_keeps_low, clip_keeps_high.
Qed.

Lemma phase3_pair_same_side d idx1 idx2 c a :
  0 < c -> idx1 <> idx2 ->
  (idx1 < List.length a)%nat -> (idx2 < List.length a)%nat ->
  0.1 <= at_ d idx1 <= 0.9 -> 0.1 <= at_ d idx2 <= 0.9 ->
  phase3_triggered idx1 idx2 a = true ->
  opposite_sides (at_ a idx1) (at_ a idx2) = true ->
  same_side (at_ (phase3_pair d idx1 idx2 c a) idx1)
            (at_ (phase3_pair d idx1 idx2 c a) idx2) = true.
Proof.
  intros Hc N L1 L2 D1 D2 T S.
  destruct (phase3_pair_values d idx1 idx2 c a N L1 L2 T) as [-> ->].
  pose proof (force_positive 1.8 (at_ d idx1) ltac:(lra) D1) as F1.
  pose proof (force_positive 1.8 (at_ d idx2) ltac:(lra) D2) as F2.
  unfold phase3_forced. cbv zeta.
  assert (Hn : Qltb c 0 = false) by (apply Qltb_ge; lra).
  rewrite Hn, S.
  apply opposite_sides_true in S.
  apply clip_same_side.
  destruct (_ || _).
  - rewrite at_upd_same by exact L1.
    rewrite at_upd_other by auto.
    destruct (shifted_side (at_ a idx2) _ _ Hc F1) as [Hi Lo].
    destruct S as [[S1 S2]|[S1 S2]]; [right|left]; auto.
  - rewrite at_upd_same by exact L2.
    rewrite at_upd_other by exact N.
    destruct (shifted_side (at_ a idx1) _ _ Hc F2) as [Hi Lo].
    destruct S as [[S1 S2]|[S1 S2]]; [left|right]; auto.
Qed.

End PositivePairs.

(** X15. The step of a positive critical pair: for every critical pair
    with a positive expected correlation whose two traits are in the
    registry, if on entry to the pair's own step of Phase 3 either score
    deviates from 0.5 by more than 0.1 and the two scores sit on opposite
    sides of 0.5, then right after that step they sit on the same side.
    Direct scores are base scores, hence inside [0.1, 0.9]. *)
Theorem positive_pair_step_same_side (ts : list string) (d a : list Q)
    (t1 t2 : string) (c : Q) (idx1 idx2 : nat) :
  In (t1, t2, c) critical_pairs -> 0 < c ->
  index_of t1 ts = Some idx1 -> index_of t2 ts = Some idx2 ->
  List.length a = List.length ts -> List.length d = List.length ts ->
  within 0.1 0.9 d ->
  phase3_triggered idx1 idx2 a = true ->
  opposite_sides (at_ a idx1) (at_ a idx2) = true ->
  same_side (at_ (phase3_step ts d a (t1, t2, c)) idx1)
            (at_ (phase3_step ts d a (t1, t2, c)) idx2) = true.
Proof.
  intros Hin Hc I1 I2 La Ld Hd T S.
  pose proof (index_of_lt _ _ _ I1) as L1.
  pose proof (index_of_lt _ _ _ I2) as L2.
  assert (D1 : 0.1 <= at_ d idx1 <= 0.9)
    by (apply (Forall_at (fun x => 0.1 <= x <= 0.9)); [exact Hd | lia]).
  assert (D2 : 0.1 <= at_ d idx2 <= 0.9)
    by (apply (Forall_at (fun x => 0.1 <= x <= 0.9)); [exact Hd | lia]).
  unfold phase3_step. rewrite I1, I2.
  apply phase3_pair_same_side; auto; try lia.
  intro E. subst idx2.
  apply (critical_pairs_distinct _ _ _ Hin).
  eapply index_of_inj; eauto.
Qed.

Lemma positive_pair_step_same_side_witness :
  same_side
    (at_ (phase3_step eo_traits [0.8; 0.3] [0.8; 0.3]
            ("Extraversion", "Dominance", 0.56)) 0)
    (at_ (phase3_step eo_traits [0.8; 0.3] [0.8; 0.3]
            ("Extraversion", "Dominance", 0.56)) 1) = true.
Proof.
  apply (positive_pair_step_same_side eo_traits [0.8; 0.3] [0.8; 0.3]
           "Extraversion" "Dominance" 0.56 0 1);
    try reflexivity.
  - simpl. auto 6.
  - unfold within. repeat (apply Forall_cons; [lra|]). apply Forall_nil.
Defined.

(** ** Phase 1 keeps extreme direct scores on their side *)

Section Phase1Protection.






End Phase1Protection.



(** ** Pair parameters *)

Section PairParams.

Lemma pair_eqb_eq p q : pair_eqb p q = true -> p = q.
Proof.
  destruct p as [a b], q as [c d]. unfold pair_eqb. simpl.
  intro H. apply andb_true_iff in H. destruct H as [H1 H2].
  apply String.eqb_eq in H1, H2. now subst.
Qed.

Lemma find_pair_key p tbl v :
  find_pair p tbl = Some v -> In (p, v) tbl.
Proof.
  induction tbl as [|[k w] r IH]; simpl; [discriminate|].
  destruct (pair_eqb p k) eqn:E.
  - apply pair_eqb_eq in E. subst k. intro H. injection H as <-. now left.
  - intro H. right. auto.
Qed.

(** No override is listed under both orders of its pair. *)
Lemma override_not_reversed a b v :
  find_pair (a, b) pair_specific_params = Some v ->
  find_pair (b, a) pair_specific_params = None.
Proof.
  intro H. apply find_pair_key in H. simpl in H.
  repeat (destruct H as [H|H]; [injection H as <- <- <-; reflexivity|]).
  destruct H.
Qed.

End PairParams.

(** X17. Pair overrides are keyed by the unordered pair: looking up the
    parameters of two traits gives the same record whichever of the two
    comes first, and a pair without an override gets force factor 1.4,
    threshold 0.15 and floor 0.15. *)
Theorem _get_pair_params_unordered (a b : string) :
  _get_pair_params (a, b) (b, a) = _get_pair_params (b, a) (a, b)
  /\ (find_pair (a, b) pair_specific_params = None ->
      find_pair (b, a) pair_specific_params = None ->
      _get_pair_params (a, b) (b, a) = mkParams 1.4 0.15 0.15).
Proof.
  unfold _get_pair_params. split.
  - destruct (find_pair (a, b) pair_specific_params) as [v|] eqn:E1.
    + now rewrite (override_not_reversed a b v E1).
    + destruct (find_pair (b, a) pair_specific_params); reflexivity.
  - intros -> ->. reflexivity.
Qed.

Lemma _get_pair_params_unordered_witness :
  _get_pair_params ("Vigilance", "Agreeableness")
                   ("Agreeableness", "Vigilance")
  = _get_pair_params ("Agreeableness", "Vigilance")
                     ("Vigilance", "Agreeableness")
  /\ (find_pair ("Vigilance", "Agreeableness") pair_specific_params = None ->
      find_pair ("Agreeableness", "Vigilance") pair_specific_params = None ->
      _get_pair_params ("Vigilance", "Agreeableness")
                       ("Agreeableness", "Vigilance")
      = mkParams 1.4 0.15 0.15).
Proof.
  apply (_get_pair_params_unordered "Vigilance" "Agreeableness").
Defined.

(** ** Negative indices count from the end *)

Section NegativeIndex.

Lemma py_index_negative {A} (xs : list A) i :
  (- Z.of_nat (List.length xs) <= i < 0)%Z ->
  py_index xs i = py_index xs (Z.of_nat (List.length xs) + i).
Proof.
  intro H. unfold py_index.
  assert (E1 : (0 <=? i)%Z = false) by (apply Z.leb_gt; lia).
  assert (E2 : (- Z.of_nat (List.length xs) <=? i)%Z = true)
    by (apply Z.leb_le; lia).
  assert (E3 : (0 <=? Z.of_nat (List.length xs) + i)%Z = true)
    by (apply Z.leb_le; lia).
  now rewrite E1, E2, E3.
Qed.

End NegativeIndex.

(** X18. A negative index is the same answer as its positive twin: on a
    scored question with a choice list, an index [i] with
    [-len <= i < 0] is processed exactly like [len + i]; both calls
    return or raise together and leave the same accumulators, scores,
    facets, tallies and cursor.  So -1 scores the last choice. *)
Theorem negative_index_aliases (m : QuizModel) (i : Z) (q : Question)
    (choices : list Choice) :
  nth_error (active_questions m) (current_question m) = Some q ->
  q_type q <> Some "demographic" ->
  q_choices q = Some choices ->
  (- Z.of_nat (List.length choices) <= i < 0)%Z ->
  option_map outcome (process_answer m i)
  = option_map outcome
      (process_answer m (Z.of_nat (List.length choices) + i)).
Proof.
  intros Eq Ht Ec Hi.
  assert (D : match q_type q with
              | Some t => String.eqb t "demographic"
              | None => false
              end = false).
  { destruct (q_type q) as [t|]; [|reflexivity].
    destruct (String.eqb t "demographic") eqn:E; [|reflexivity].
    apply String.eqb_eq in E. congruence. }
  unfold process_answer, bind. rewrite Eq, D, Ec. cbn [or_default].
  assert (G1 : (Z.of_nat (List.length choices) <=? i)%Z = false)
    by (apply Z.leb_gt; lia).
  assert (G2 : (Z.of_nat (List.length choices)
                <=? Z.of_nat (List.length choices) + i)%Z = false)
    by (apply Z.leb_gt; lia).
  rewrite G1, G2, <- (py_index_negative choices i Hi).
  destruct (py_index choices i) as [c|]; [|reflexivity].
  destruct (direct_contribution _ _ _) as [acc0|]; [|reflexivity].
  destruct (_apply_correlations _ _ _ acc0) as [acc|]; [|reflexivity].
  destruct (facet_contribution _ _ _ _) as [fs|]; [|reflexivity].
  unfold calculate_scores, bind.
  match goal with
  | |- option_map _ (match match computed_scores ?m1 with _ => _ end
                     with _ => _ end)
       = option_map _ (match match computed_scores ?m2 with _ => _ end
                       with _ => _ end) =>
      rewrite (computed_scores_ext m2 m1) by (repeat split);
      destruct (computed_scores m1); reflexivity
  end.
Qed.

Lemma negative_index_aliases_witness :
  option_map outcome (process_answer (ideas_quiz "Low" 2) (-1))
  = option_map outcome
      (process_answer (ideas_quiz "Low" 2)
         (Z.of_nat (List.length [mkChoice (Some "Low") None;
                                 mkChoice (Some "Moderate") None;
                                 mkChoice (Some "Very High") None]) + -1)).
Proof.
  apply (negative_index_aliases (ideas_quiz "Low" 2) (-1)
           (ideas_question "Low"));
    try reflexivity.
  - discriminate.
  - simpl. lia.
Defined.

(** ** The score vector along a stream *)

(** X19. One score per trait at all times: on a freshly selected
    question list, after any accepted stream of answers the trait score
    vector has exactly as many entries as the registry has traits. *)
Theorem trait_scores_length_along_stream (qs : list Question)
    (m0 m' : QuizModel) (answers : list Z) :
  process_answers (select_questions qs m0) answers = Some m' ->
  List.length (trait_scores m') = List.length (traits m0).
Proof.
  assert (G : forall m, process_answers m answers = Some m' ->
              List.length (trait_scores m) = List.length (traits m) ->
              List.length (trait_scores m') = List.length (traits m)).
  { unfold process_answers. induction answers as [|i r IH]; intros m E L.
    - simpl in E. now injection E as <-.
    - cbn [fold_opt] in E. unfold bind in E.
      destruct (process_answer m i) as [m1|] eqn:E1; [|discriminate].
      destruct (process_answer_scores _ _ _ E1) as (_ & T & _ & Hs).
      rewrite <- T. apply (IH m1 E). rewrite T.
      destruct Hs as [-> | (m2 & m3 & _ & A2 & _ & A4 & ->)]; [exact L|].
      rewrite (calculate_scores_length _ _ A4). now rewrite A2. }
  intro E. apply (G _ E). simpl. apply repeat_length.
Qed.

Lemma trait_scores_length_along_stream_witness :
  List.length (trait_scores avd_scored)
  = List.length
      (traits (new_model false avd_traits []
                         [[0; 0; 0]; [0; 0; 0]; [0; 0; 0]])).
Proof.
  apply (trait_scores_length_along_stream
           (active_questions avd_quiz)
           (new_model false avd_traits []
                      [[0; 0; 0]; [0; 0; 0]; [0; 0; 0]])
           avd_scored avd_answers).
  vm_compute. reflexivity.
Defined.

(** ** One pair of Phase 2 *)

Section Phase2Step.

(** After the two closing clamps of a pair adjustment: the two traits
    carry the clamped values, every other trait is untouched. *)
Lemma closing_clamps i j (a a1 : list Q) (lo_i lo_j : Q) :
  i <> j -> (i < List.length a)%nat -> (j < List.length a)%nat ->
  a1 = a \/ (exists x, a1 = upd i x a) \/ (exists x, a1 = upd j x a) ->
  let r := upd j (pymax lo_j (pymin 0.9
                   (at_ (upd i (pymax lo_i (pymin 0.9 (at_ a1 i))) a1) j)))
               (upd i (pymax lo_i (pymin 0.9 (at_ a1 i))) a1) in
  (forall k, k <> i -> k <> j -> at_ r k = at_ a k)
  /\ (exists u, at_ r i = pymax lo_i (pymin 0.9 u))
  /\ (exists u, at_ r j = pymax lo_j (pymin 0.9 u)).
Proof.
  intros N Li Lj Ha r.
  assert (L1 : List.length a1 = List.length a)
    by (destruct Ha as [->|[[x ->]|[x ->]]]; auto using upd_length).
  subst r. split; [|split].
  - intros k Ki Kj. rewrite !at_upd_other by assumption.
    destruct Ha as [->|[[x ->]|[x ->]]]; auto using at_upd_other.
  - rewrite at_upd_other by exact N.
    rewrite at_upd_same by (now rewrite L1). eauto.
  - rewrite at_upd_same by (now rewrite upd_length, L1). eauto.
Qed.

End Phase2Step.

Section Phase2Effect.

Lemma floor_clamp_range lo extra u :
  0.15 <= lo <= 0.21 -> 0 <= extra <= 0.1 ->
  lo <= pymax (lo + extra) (pymin 0.9 u) <= 0.9.
Proof.
  intros Hl He. pose proof (clamp_range (lo + extra) 0.9 u ltac:(lra)). lra.
Qed.

Lemma adjust_negative_effect a d i j c params :
  i <> j -> (i < List.length a)%nat -> (j < List.length a)%nat ->
  0.15 <= min_score params <= 0.21 ->
  (forall k, k <> i -> k <> j ->
     at_ (_adjust_negative_correlation a d i j c params) k = at_ a k)
  /\ min_score params
     <= at_ (_adjust_negative_correlation a d i j c params) i <= 0.9
  /\ min_score params
     <= at_ (_adjust_negative_correlation a d i j c params) j <= 0.9.
Proof.
  intros N Li Lj Hm. unfold _adjust_negative_correlation. cbv zeta.
  match goal with
  | |- context [upd j (pymax ?lj (pymin 0.9
                  (at_ (upd i (pymax ?li (pymin 0.9 (at_ ?a1 i))) ?a1) j))) _] =>
      destruct (closing_clamps i j a a1 li lj N Li Lj) as (F & [u Eu] & [w Ew])
  end.
  { destruct (same_side _ _); auto. destruct (_ || _); eauto. }
  split; [exact F|]. rewrite Eu, Ew.
  split; apply floor_clamp_range; auto;
    match goal with |- context [if ?b then _ else _] => destruct b end; lra.
Qed.

Lemma adjust_positive_effect a d i j c params :
  i <> j -> (i < List.length a)%nat -> (j < List.length a)%nat ->
  0.15 <= min_score params <= 0.21 ->
  (forall k, k <> i -> k <> j ->
     at_ (_adjust_positive_correlation a d i j c params) k = at_ a k)
  /\ min_score params
     <= at_ (_adjust_positive_correlation a d i j c params) i <= 0.9
  /\ min_score params
     <= at_ (_adjust_positive_correlation a d i j c params) j <= 0.9.
Proof.
  intros N Li Lj Hm. unfold _adjust_positive_correlation. cbv zeta.
  match goal with
  | |- context [upd j (pymax ?lj (pymin 0.9
                  (at_ (upd i (pymax ?li (pymin 0.9 (at_ ?a1 i))) ?a1) j))) _] =>
      destruct (closing_clamps i j a a1 li lj N Li Lj) as (F & [u Eu] & [w Ew])
  end.
  { destruct (opposite_sides _ _); auto. destruct (Qltb _ _); eauto. }
  split; [exact F|]. rewrite Eu, Ew.
  split; apply clamp_range; lra.
Qed.

End Phase2Effect.

(** X20. What one pair of Phase 2 can do: for two distinct traits, the
    pair's turn of the double loop leaves every other trait untouched;
    it changes nothing at all when the correlation of the pair is weaker
    than 0.45 or one of the two scores is closer to 0.5 than the pair's
    threshold; and otherwise both scores end inside
    [min_score, 0.9] for the pair's floor [min_score]. *)
Theorem phase2_step_effect (ts : list string) (d a : list Q)
    (corr : list (list Q)) (i j : nat) :
  i <> j -> (i < List.length a)%nat -> (j < List.length a)%nat ->
  let params :=
    _get_pair_params (nth i ts "", nth j ts "") (nth j ts "", nth i ts "") in
  let correlation := nth j (nth i corr []) 0 in
  let r := phase2_step ts d corr a (i, j) in
  (forall k, k <> i -> k <> j -> at_ r k = at_ a k)
  /\ (Qabs correlation < 0.45
      \/ Qabs (at_ a i - 0.5) < threshold params
      \/ Qabs (at_ a j - 0.5) < threshold params -> r = a)
  /\ (0.45 <= Qabs correlation ->
      threshold params <= Qabs (at_ a i - 0.5) ->
      threshold params <= Qabs (at_ a j - 0.5) ->
      min_score params <= at_ r i <= 0.9
      /\ min_score params <= at_ r j <= 0.9).
Proof.
  intros N Li Lj params correlation r.
  pose proof (_get_pair_params_min_score
                (nth i ts "", nth j ts "") (nth j ts "", nth i ts "")) as Hm.
  fold params in Hm.
  destruct (adjust_negative_effect a d i j correlation params N Li Lj Hm)
    as (Fn & Rn).
  destruct (adjust_positive_effect a d i j correlation params N Li Lj Hm)
    as (Fp & Rp).
  subst r. unfold phase2_step. fold params. fold correlation.
  destruct (Qltb (Qabs correlation) 0.45) eqn:Ew;
    [apply Qltb_lt in Ew | apply Qltb_ge in Ew].
  { repeat split; auto; intros; lra. }
  destruct (Qleb (threshold params) (Qabs (at_ a i - 0.5))) eqn:Ei;
    [apply Qleb_le in Ei | apply Qleb_gt in Ei]; cbn [andb].
  2: { repeat split; auto; intros; lra. }
  destruct (Qleb (threshold params) (Qabs (at_ a j - 0.5))) eqn:Ej;
    [apply Qleb_le in Ej | apply Qleb_gt in Ej].
  2: { repeat split; auto; intros; lra. }
  destruct (Qltb correlation 0).
  - split; [exact Fn|]. split; [intros [H|[H|H]]; lra | intros; exact Rn].
  - split; [exact Fp|]. split; [intros [H|[H|H]]; lra | intros; exact Rp].
Qed.

Lemma phase2_step_effect_witness :
  let params :=
    _get_pair_params (nth 0 avd_traits "", nth 1 avd_traits "")
                     (nth 1 avd_traits "", nth 0 avd_traits "") in
  let correlation := nth 1 (nth 0 [[0; -0.6; 0]; [-0.6; 0; 0]; [0; 0; 0]] []) 0 in
  let r := phase2_step avd_traits [0.7; 0.65; 0.8]
             [[0; -0.6; 0]; [-0.6; 0; 0]; [0; 0; 0]] [0.7; 0.65; 0.8]
             (0%nat, 1%nat) in
  (forall k, k <> 0%nat -> k <> 1%nat -> at_ r k = at_ [0.7; 0.65; 0.8] k)
  /\ (Qabs correlation < 0.45
      \/ Qabs (at_ [0.7; 0.65; 0.8] 0 - 0.5) < threshold params
      \/ Qabs (at_ [0.7; 0.65; 0.8] 1 - 0.5) < threshold params ->
      r = [0.7; 0.65; 0.8])
  /\ (0.45 <= Qabs correlation ->
      threshold params <= Qabs (at_ [0.7; 0.65; 0.8] 0 - 0.5) ->
      threshold params <= Qabs (at_ [0.7; 0.65; 0.8] 1 - 0.5) ->
      min_score params <= at_ r 0 <= 0.9
      /\ min_score params <= at_ r 1 <= 0.9).
Proof.
  apply (phase2_step_effect avd_traits [0.7; 0.65; 0.8] [0.7; 0.65; 0.8]
           [[0; -0.6; 0]; [-0.6; 0; 0]; [0; 0; 0]] 0 1);
    simpl; lia.
Defined.
